(** * Curation maker: harvesting, retry and keyword filtering

    A shallow embedding of [curation_maker_fast.py] (the asynchronous
    harvester) and of the parts of [curation_maker_html.py] that it shares
    (catalog paging, [filter_by_keywords]); further down, of the two
    harvesters of [curation_maker_html.py] that fetch every item once, and
    of the input and filtering loops of [main].

    Modelling conventions.
    - A Python [str] is a [string] whose characters are the code points
      below 256; on those, [str.lower] works character by character: it
      moves [A-Z] and the capital letters from 192 to 222 (all but the
      multiplication sign, 215) up by 32 and leaves the rest alone.
    - Durations are milliseconds in [Z]: [asyncio.sleep(0.2 * attempt)] is
      [sleep (200 * attempt)].
    - The network is an oracle: what each GET answers is an argument of the
      model, so a statement quantified over the oracle holds for every run.
    - The records of a listing page are JSON objects whose product id,
      title and brand are strings or missing; the value of [webURL] may be
      a string, missing, or of another type ([null]).
    - What BeautifulSoup finds in a page is given by the record [Soup.t];
      the code's own post-processing of those finds is modelled in full.
    - Console banners are left out; the per-item and per-page lines are
      events of the trace.
    - The search text that [extract_search_text] cuts out of the URL is an
      argument of the paging loop; the constant request headers are not
      part of the [Get] event. *)

From Stdlib Require Import ZArith Lia Ascii.
From stdpp Require Import base list strings pretty.

Local Open Scope Z_scope.
Local Open Scope nat_scope.

(** ** Python strings *)

(** [c.lower()] for one character. *)
Definition lower_char (c : ascii) : ascii :=
  let n := nat_of_ascii c in
  if ((65 <=? n) && (n <=? 90))
     || ((192 <=? n) && (n <=? 222) && negb (n =? 215))
  then ascii_of_nat (n + 32)
  else c.

(** [s.lower()] *)
Fixpoint lower (s : string) : string :=
  match s with
  | EmptyString => EmptyString
  | String c s' => String (lower_char c) (lower s')
  end.

(** [s.startswith(pre)] *)
Fixpoint startswith (s pre : string) {struct pre} : bool :=
  match pre, s with
  | EmptyString, _ => true
  | String _ _, EmptyString => false
  | String a pre', String b s' =>
      if Ascii.eqb a b then startswith s' pre' else false
  end.

(** [kw in text] *)
Fixpoint contains (kw text : string) : bool :=
  startswith text kw ||
  match text with
  | EmptyString => false
  | String _ text' => contains kw text'
  end.

(** Truth value of a string: [if s]. *)
Definition truthy (s : string) : bool :=
  match s with
  | EmptyString => false
  | String _ _ => true
  end.

(** [sep.join(parts)] *)
Fixpoint join (sep : string) (parts : list string) : string :=
  match parts with
  | [] => EmptyString
  | [p] => p
  | p :: rest => p +:+ sep +:+ join sep rest
  end.

(** ** Data *)

(** An entry of [all_products]: keys ['mp_code'], ['url'], ['title'],
    ['brand']. *)
Module Product.
Record t := mk { mp_code : string; url : string; title : string; brand : string }.
End Product.

(** An entry of [products_with_text]: keys ['mp_code'],
    ['searchable_text'], ['title'], ['brand']. *)
Module Scraped.
Record t := mk
  { mp_code : string; searchable_text : string; title : string; brand : string }.
End Scraped.

(** A record of the listing API's ['searchresult'] array; a missing key is
    the empty string, as [product.get(key, '')] reads it. The value of
    ['webURL'] is [None] when the key holds a value that is not a string
    (JSON [null], a number), on which [web_url.startswith] raises. *)
Module Listing.
Record t := mk
  { productId : string;
    webURL : option string;
    productname : string;
    brandname : string }.
End Listing.

(** What the parser finds in a product page. *)
Module Soup.
(** One element returned by [soup.find_all([...], class_=...)]:
    [str(section.get('class', [])) + str(section.get('id', ''))] and
    [section.get_text(separator=' ', strip=True)]. *)
Record tag := mk_tag { class_and_id : string; get_text : string }.

(** [meta_desc] and [meta_keywords] hold the [content] attribute of the
    meta tag when the tag exists and carries one. *)
Record t := mk
  { meta_desc : option string;
    meta_keywords : option string;
    product_sections : list tag }.
End Soup.

(** ** [filter_by_keywords]: the function's frame and its statements *)

(** The two arguments are the caller's list objects; the other three are
    the function's local lists. *)
Record frame := mk_frame
  { products_data : list Scraped.t;
    keywords : list string;
    keywords_lower : list string;
    matched_mp_codes : list string;
    matches : list string }.

Definition St (A : Type) : Type := frame -> A * frame.

#[global] Instance St_ret : MRet St := fun A a f => (a, f).
#[global] Instance St_bind : MBind St :=
  fun A B k m f => let '(a, f') := m f in k a f'.

Definition gets {A} (field : frame -> A) : St A := fun f => (field f, f).

Definition set_keywords_lower (v : list string) : St unit := fun f =>
  (tt, mk_frame (products_data f) (keywords f) v (matched_mp_codes f) (matches f)).

Definition set_matched_mp_codes (v : list string) : St unit := fun f =>
  (tt, mk_frame (products_data f) (keywords f) (keywords_lower f) v (matches f)).

Definition set_matches (v : list string) : St unit := fun f =>
  (tt, mk_frame (products_data f) (keywords f) (keywords_lower f) (matched_mp_codes f) v).

(** [matches.append(x)] and [matched_mp_codes.append(x)] *)
Definition matches_append (x : string) : St unit :=
  m ← gets matches; set_matches (m ++ [x]).

Definition matched_mp_codes_append (x : string) : St unit :=
  m ← gets matched_mp_codes; set_matched_mp_codes (m ++ [x]).

(** [for x in l: body] *)
Fixpoint for_each {A} (l : list A) (body : A -> St unit) : St unit :=
  match l with
  | [] => mret tt
  | x :: l' => body x;; for_each l' body
  end.

(** Truth value of a list: [if matches]. *)
Definition nonempty {A} (l : list A) : bool :=
  match l with
  | [] => false
  | _ :: _ => true
  end.

(** The body of [for keyword in keywords_lower]. *)
Definition keyword_body (product : Scraped.t) (keyword : string) : St unit :=
  if contains keyword (Scraped.searchable_text product)
  then matches_append keyword
  else mret tt.

(** The body of [for product in products_data]. *)
Definition product_body (product : Scraped.t) : St unit :=
  set_matches [];;
  kl ← gets keywords_lower;
  for_each kl (keyword_body product);;
  m ← gets matches;
  if nonempty m
  then matched_mp_codes_append (Scraped.mp_code product)
  else mret tt.

Definition filter_by_keywords_body : St (list string) :=
  kws ← gets keywords;
  set_keywords_lower (lower <$> kws);;
  set_matched_mp_codes [];;
  pd ← gets products_data;
  for_each pd product_body;;
  gets matched_mp_codes.

(** A call: the frame starts with the two arguments bound. *)
Definition call_filter_by_keywords
    (pd : list Scraped.t) (kws : list string) : list string * frame :=
  filter_by_keywords_body (mk_frame pd kws [] [] []).

Definition filter_by_keywords (pd : list Scraped.t) (kws : list string) : list string :=
  fst (call_filter_by_keywords pd kws).

(** ** Effects of the network code: exceptions and a trace *)

(** [asyncio.TimeoutError], or any other [Exception]. *)
Inductive exn := TimeoutError | OtherException.

(** Lines written to the console by the per-item and per-page code. *)
Inductive line :=
  | LFailedStatus (index total : nat) (mp_code : string) (status : Z)
  | LTimeout (index total : nat) (mp_code : string)
  | LError (index total : nat) (mp_code : string)
  | LProgress (index total : nat)
  | LDebug (index : nat) (mp_code url searchable_text : string)
  | LFetchingPage (page : nat)
  | LFound (found total : nat)
  | LPageError.

Inductive event :=
  | Sleep (ms : Z)
  | Get (url : string)
  | Print (l : line).

Definition trace := list event.

(** A computation yields a value or raises, and leaves a trace. *)
Definition IO (A : Type) : Type := (exn + A) * trace.

#[global] Instance IO_ret : MRet IO := fun A a => (inr a, []).
#[global] Instance IO_bind : MBind IO := fun A B k m =>
  match m with
  | (inl e, t) => (inl e, t)
  | (inr a, t) => let '(r, t') := k a in (r, t ++ t')
  end.

Definition raise {A} (e : exn) : IO A := (inl e, []).
Definition emit (ev : event) : IO unit := (inr tt, [ev]).
Definition sleep (ms : Z) : IO unit := emit (Sleep ms).
Definition print (l : line) : IO unit := emit (Print l).

(** What a finished computation hands to whoever awaits it. *)
Definition outcome {A} (m : IO A) : exn + A := fst m.
Definition effects {A} (m : IO A) : trace := snd m.

(** [try: body / except ... as e: handler e] *)
Definition try_except {A} (body : IO A) (handler : exn -> IO A) : IO A :=
  match body with
  | (inl e, t) => let '(r, t') := handler e in (r, t ++ t')
  | (inr a, t) => (inr a, t)
  end.

(** ** The item page: one GET and what is made of the answer *)

(** What one [session.get] does: it raises, or it answers with a status
    and a body; reading and parsing the body ([response.text()], the
    parser and the finds) raises or yields the finds. *)
Inductive fetch_outcome :=
  | GetRaises (e : exn)
  | GetResponds (status : Z) (body : exn + Soup.t).

Definition session_get (o : fetch_outcome) (url : string) : IO (Z * (exn + Soup.t)) :=
  emit (Get url);;
  match o with
  | GetRaises e => raise e
  | GetResponds status body => mret (status, body)
  end.

Definition read_and_parse (body : exn + Soup.t) : IO Soup.t :=
  match body with
  | inl e => raise e
  | inr page => mret page
  end.

(** [any(word in section_str.lower() for word in [...])] *)
Definition is_recommendation (section : Soup.tag) : bool :=
  existsb (fun word => contains word (lower (Soup.class_and_id section)))
    ["similar"; "viewed"; "recommend"; "related"; "carousel"]%string.

(** [if meta and meta.get('content'): searchable_parts.append(...)] *)
Definition meta_part (content : option string) : list string :=
  match content with
  | Some c => if truthy c then [c] else []
  | None => []
  end.

Definition searchable_parts (product : Product.t) (page : Soup.t) : list string :=
  [Product.title product; Product.brand product]
  ++ meta_part (Soup.meta_desc page)
  ++ meta_part (Soup.meta_keywords page)
  ++ (Soup.get_text <$>
        List.filter (fun section => negb (is_recommendation section))
                    (Soup.product_sections page)).

(** [' '.join(str(p) for p in searchable_parts if p).lower()] *)
Definition searchable_text_of (product : Product.t) (page : Soup.t) : string :=
  lower (join " " (List.filter truthy (searchable_parts product page))).

Definition scraped (product : Product.t) (page : Soup.t) : Scraped.t :=
  Scraped.mk (Product.mp_code product) (searchable_text_of product page)
             (Product.title product) (Product.brand product).

(** ** [scrape_single_product] *)

(** How one pass through the body of the [for] loop ends. *)
Inductive control (A : Type) :=
  | Continue
  | Return (a : A).
Arguments Continue {A}.
Arguments Return {A} a.

Definition when (b : bool) (m : IO unit) : IO unit := if b then m else mret tt.

Section scrape_single_product.
(** [w attempt] is what the GET of that attempt does. *)
Variable w : nat -> fetch_outcome.
Variable product : Product.t.
Variables index total : nat.
Variable show_debug : bool.

Let mp_code := Product.mp_code product.
Let product_url := Product.url product.

(** [total] is the length of the list the item is taken from, so it is
    not zero and the percentage [index/total*100] of the progress line is
    defined. *)
Definition attempt_body (attempt : nat) : IO (control (option Scraped.t)) :=
  try_except
    (sleep (200 * Z.of_nat attempt);;
     response ← session_get (w attempt) product_url;
     if negb (fst response =? 200)%Z then
       if attempt <? 2 then mret Continue
       else print (LFailedStatus index total mp_code (fst response));;
            mret (Return None)
     else
       page ← read_and_parse (snd response);
       let searchable_text := searchable_text_of product page in
       when (index mod 100 =? 0) (print (LProgress index total));;
       when show_debug (print (LDebug index mp_code product_url searchable_text));;
       mret (Return (Some (scraped product page))))
    (fun e =>
       match e with
       | TimeoutError =>
           if attempt <? 2 then sleep 1000;; mret Continue
           else print (LTimeout index total mp_code);; mret (Return None)
       | OtherException =>
           if attempt <? 2 then sleep 1000;; mret Continue
           else print (LError index total mp_code);; mret (Return None)
       end).

(** [for attempt in attempts: ...] followed by [return None]. *)
Fixpoint for_attempts (attempts : list nat) : IO (option Scraped.t) :=
  match attempts with
  | [] => mret None
  | attempt :: rest =>
      c ← attempt_body attempt;
      match c with
      | Continue => for_attempts rest
      | Return r => mret r
      end
  end.

Definition scrape_single_product : IO (option Scraped.t) :=
  sleep 300;;
  for_attempts (seq 0 3).
End scrape_single_product.

(** ** [scrape_products_batch] *)

(** [asyncio.gather] over all the tasks, with [return_exceptions=True]: every task runs to
    its end, in some order of completion [order]; the outcome of task [i]
    (its value, or the exception it raised) is stored in slot [i]. The call
    returns once no slot is pending. *)
Definition gather_slots {R} (order : list nat) (outcomes : list R) : list (option R) :=
  foldl (fun slots i => <[i := outcomes !! i]> slots)
        (replicate (length outcomes) None) order.

Definition gather {R} (order : list nat) (outcomes : list R) : option (list R) :=
  mapM id (gather_slots order outcomes).

(** [r is not None and not isinstance(r, Exception)] *)
Definition kept (r : exn + option Scraped.t) : option Scraped.t :=
  match r with
  | inr (Some d) => Some d
  | inr None => None
  | inl _ => None
  end.

Section scrape_products_batch.
(** [world i attempt]: what the GET number [attempt] for the item at
    position [i] of the list does. *)
Variable world : nat -> nat -> fetch_outcome.
(** The order in which the tasks complete. *)
Variable order : list nat.

(** The coroutines built by the [for] loop over [enumerate(products, 1)]. *)
Definition tasks (products : list Product.t) (debug : bool)
    : list (IO (option Scraped.t)) :=
  imap (fun i product =>
          scrape_single_product (world i) product (S i) (length products)
                                (debug && (S i <=? 3)))
       products.

Definition scrape_products_batch (products : list Product.t) (debug : bool)
    : option (list Scraped.t) :=
  match gather order (outcome <$> tasks products debug) with
  | Some results => Some (omap kept results)
  | None => None
  end.
End scrape_products_batch.

(** ** Catalog paging *)

(** What one [requests.get] of a listing page does: it raises, or it
    answers with a status; [response.json()] raises ([None]) or yields an
    object whose ['searchresult'] array (empty when the key is missing) is
    the list. *)
Inductive page_outcome :=
  | RequestRaises
  | Responded (status : Z) (json : option (list Listing.t)).

Definition requests_get (o : page_outcome) (url : string)
    : IO (Z * option (list Listing.t)) :=
  emit (Get url);;
  match o with
  | RequestRaises => raise OtherException
  | Responded status json => mret (status, json)
  end.

Definition response_json (json : option (list Listing.t)) : IO (list Listing.t) :=
  match json with
  | None => raise OtherException
  | Some products => mret products
  end.

Definition build_api_url (search_text : string) (page : nat) : string :=
  "https://searchbff.tatacliq.com/products/lux/search"
  +:+ "?" +:+ "pageSize=24"
  +:+ "&" +:+ "page=" +:+ pretty page
  +:+ "&" +:+ "searchText=" +:+ search_text
  +:+ "&" +:+ "isPwa=true"
  +:+ "&" +:+ "channel=web"
  +:+ "&" +:+ "isMDE=true".

(** The paging code appends to the list object [all_products] in place:
    what was appended stays in the list when an exception is raised later.
    A computation of the paging code takes the list and hands it back as
    it leaves it, whether it returns or raises. *)
Definition Paging (A : Type) : Type := list Product.t -> IO A * list Product.t.

#[global] Instance Paging_ret : MRet Paging := fun A a all_products =>
  ((inr a, []), all_products).
#[global] Instance Paging_bind : MBind Paging := fun A B k m all_products =>
  match m all_products with
  | ((inl e, t), all_products) => ((inl e, t), all_products)
  | ((inr a, t), all_products) =>
      let '((r, t'), all_products) := k a all_products in
      ((r, t ++ t'), all_products)
  end.

(** A computation that does not touch the list. *)
Definition lift {A} (m : IO A) : Paging A := fun all_products => (m, all_products).

(** [all_products.append(p)] and [len(all_products)] *)
Definition all_products_append (p : Product.t) : Paging unit := fun all_products =>
  ((inr tt, []), all_products ++ [p]).

Definition all_products_len : Paging nat := fun all_products =>
  ((inr (length all_products), []), all_products).

(** [try: body / except Exception as e: handler e] in the paging code. *)
Definition try_paging {A} (body : Paging A) (handler : exn -> Paging A) : Paging A :=
  fun all_products =>
    match body all_products with
    | ((inl e, t), all_products) =>
        let '((r, t'), all_products) := handler e all_products in
        ((r, t ++ t'), all_products)
    | ((inr a, t), all_products) => ((inr a, t), all_products)
    end.

(** The body of [for product in products]: a record without a product id
    is skipped; for a record with one, [web_url.startswith('http')] raises
    [AttributeError] when the value of ['webURL'] is not a string. *)
Definition record_body (product : Listing.t) : Paging unit :=
  let mp_code := Listing.productId product in
  if truthy mp_code then
    match Listing.webURL product with
    | None => lift (raise OtherException)
    | Some web_url =>
        let web_url :=
          if negb (startswith web_url "http")
          then "https://luxury.tatacliq.com" +:+ web_url
          else web_url in
        all_products_append
          (Product.mk mp_code web_url
                      (Listing.productname product) (Listing.brandname product))
    end
  else mret tt.

(** [for product in products: ...] *)
Fixpoint for_products (products : list Listing.t) : Paging unit :=
  match products with
  | [] => mret tt
  | product :: rest => record_body product;; for_products rest
  end.

(** How one pass through the body of the [while] loop ends. *)
Inductive paging := NextPage | Break.

Section paging.
(** [catalog page] is what the request for that page does. *)
Variable catalog : nat -> page_outcome.
Variable search_text : string.
(** The pause after a full page, 300 or 500 ms. *)
Variable pause : Z.

Definition page_body (page : nat) : Paging paging :=
  lift (print (LFetchingPage page));;
  try_paging
    (response ← lift (requests_get (catalog page) (build_api_url search_text page));
     if negb (fst response =? 200)%Z then mret Break
     else
       products ← lift (response_json (snd response));
       if negb (nonempty products) then mret Break
       else
         for_products products;;
         total ← all_products_len;
         lift (print (LFound (length products) total));;
         if length products <? 24 then mret Break
         else lift (sleep pause);; mret NextPage)
    (fun _ => lift (print LPageError);; mret Break).

(** [while page < ceiling: ...], with [remaining = ceiling - page]: the
    loop is left when no page remains below the ceiling or on [break]. *)
Fixpoint paging_loop (remaining page : nat) : Paging unit :=
  match remaining with
  | 0 => mret tt
  | S remaining' =>
      r ← page_body page;
      match r with
      | Break => mret tt
      | NextPage => paging_loop remaining' (S page)
      end
  end.

(** The loop run on [all_products = []]; what follows it reads the list. *)
Definition discover (ceiling : nat) : IO (list Product.t) :=
  let '((r, t), all_products) := paging_loop ceiling 0 [] in
  (match r with
   | inl e => inl e
   | inr _ => inr all_products
   end, t).
End paging.

(** The three paging loops of the repository. *)
Definition discover_async catalog search_text := discover catalog search_text 300 500.
Definition discover_sync catalog search_text := discover catalog search_text 500 500.
Definition discover_single catalog search_text := discover catalog search_text 500 100.

(** [scrape_all_products_async]: paging, then the batch over what paging
    found. *)
Definition scrape_all_products_async
    (catalog : nat -> page_outcome) (world : nat -> nat -> fetch_outcome)
    (order : list nat) (search_text : string) (debug : bool)
    : option (list Scraped.t) :=
  match outcome (discover_async catalog search_text) with
  | inr all_products => scrape_products_batch world order all_products debug
  | inl _ => None
  end.

(** ** The keyword filter as the specification words it *)

(** [kw] is a substring of [text]. *)
Definition is_substring (kw text : string) : Prop :=
  exists before after, text = before +:+ kw +:+ after.

(** The group matches a result when any of its lowercased keywords is a
    substring of the result's text. *)
Definition group_matches (keywords : list string) (r : Scraped.t) : Prop :=
  exists kw, kw ∈ lower <$> keywords /\ is_substring kw (Scraped.searchable_text r).

(** The ids of the matching results, one per matching result, in the
    order of the corpus. *)
Inductive keyword_filter (keywords : list string)
    : list Scraped.t -> list string -> Prop :=
  | kf_end : keyword_filter keywords [] []
  | kf_match r corpus ids :
      group_matches keywords r ->
      keyword_filter keywords corpus ids ->
      keyword_filter keywords (r :: corpus) (Scraped.mp_code r :: ids)
  | kf_skip r corpus ids :
      ~ group_matches keywords r ->
      keyword_filter keywords corpus ids ->
      keyword_filter keywords (r :: corpus) ids.

(** The test the two loops of [filter_by_keywords] amount to. *)
Definition any_keyword_in (keywords_lower : list string) (r : Scraped.t) : bool :=
  existsb (fun keyword => contains keyword (Scraped.searchable_text r)) keywords_lower.

(** ** Reading a run of [scrape_single_product] *)

(** The page an attempt ends with: its GET answers 200 and the body is
    read and parsed. *)
Definition page_of (o : fetch_outcome) : option Soup.t :=
  match o with
  | GetResponds status (inr page) => if (status =? 200)%Z then Some page else None
  | GetResponds _ (inl _) => None
  | GetRaises _ => None
  end.

(** The fetch fails: the GET raises, or answers a status other than 200. *)
Definition fetch_fails (o : fetch_outcome) : bool :=
  match o with
  | GetRaises _ => true
  | GetResponds status _ => negb (status =? 200)%Z
  end.

(** The fetch succeeds and the extraction fails: the GET answers 200 and
    reading or parsing the body raises. *)
Definition extraction_fails (o : fetch_outcome) : bool :=
  match o with
  | GetResponds status (inl _) => (status =? 200)%Z
  | GetResponds _ (inr _) => false
  | GetRaises _ => false
  end.

(** The first of [attempts] that ends with a page. *)
Fixpoint first_success (w : nat -> fetch_outcome) (attempts : list nat)
    : option (nat * Soup.t) :=
  match attempts with
  | [] => None
  | attempt :: rest =>
      match page_of (w attempt) with
      | Some page => Some (attempt, page)
      | None => first_success w rest
      end
  end.

(** The number of GETs of a run: up to the first attempt that ends with a
    page, all three otherwise. *)
Definition attempts_made (w : nat -> fetch_outcome) : nat :=
  match first_success w (seq 0 3) with
  | Some (attempt, _) => S attempt
  | None => 3
  end.

(** What the run returns. *)
Definition harvest_result (w : nat -> fetch_outcome) (product : Product.t)
    : option Scraped.t :=
  match first_success w (seq 0 3) with
  | Some (_, page) => Some (scraped product page)
  | None => None
  end.

Definition is_get (ev : event) : bool :=
  match ev with
  | Get _ => true
  | Sleep _ => false
  | Print _ => false
  end.

Definition count_gets (t : trace) : nat := length (List.filter is_get t).

(** For every GET of a trace, the time slept since the GET before it, or
    since the start of the trace for the first one: all that the run
    waits before the attempt. *)
Fixpoint pauses_from (slept : Z) (t : trace) : list Z :=
  match t with
  | [] => []
  | Sleep ms :: t' => pauses_from (slept + ms) t'
  | Get _ :: t' => slept :: pauses_from 0 t'
  | Print _ :: t' => pauses_from slept t'
  end.

Definition pauses_before_gets (t : trace) : list Z := pauses_from 0 t.

(** The attempt ends in one of the two [except] clauses: the GET raises,
    or it answers 200 and reading or parsing the body raises. *)
Definition attempt_raises (o : fetch_outcome) : bool :=
  match o with
  | GetRaises _ => true
  | GetResponds status (inl _) => (status =? 200)%Z
  | GetResponds _ (inr _) => false
  end.

(** The fetches of a run whose first two GETs time out and whose third one
    answers 200 with a page. *)
Definition two_timeouts_then_page (page : Soup.t) (attempt : nat) : fetch_outcome :=
  match attempt with
  | 0 | 1 => GetRaises TimeoutError
  | _ => GetResponds 200 (inr page)
  end.

(** For every GET of a trace, the pause slept right before it, if the
    event before it is a pause. *)
Fixpoint waits_before_gets (t : trace) : list (option Z) :=
  match t with
  | [] => []
  | Sleep ms :: t' =>
      match t' with
      | Get _ :: t'' => Some ms :: waits_before_gets t''
      | _ => waits_before_gets t'
      end
  | Get _ :: t' => None :: waits_before_gets t'
  | Print _ :: t' => waits_before_gets t'
  end.

(** The fetches of the scenario: status 500 on attempts 0 and 1, then
    status 200 with a page. *)
Definition two_failures_then_page (body0 body1 : exn + Soup.t) (page : Soup.t)
    (attempt : nat) : fetch_outcome :=
  match attempt with
  | 0 => GetResponds 500 body0
  | 1 => GetResponds 500 body1
  | _ => GetResponds 200 (inr page)
  end.

(** The fetches of a run whose first body cannot be read and whose second
    attempt ends with a page. *)
Definition unreadable_then_page (page : Soup.t) (attempt : nat) : fetch_outcome :=
  match attempt with
  | 0 => GetResponds 200 (inl OtherException)
  | _ => GetResponds 200 (inr page)
  end.

(** A stretch of a trace without GETs. *)
Definition quiet (t : trace) : Prop := Forall (fun ev => is_get ev = false) t.

(** ** Reading a run of [scrape_products_batch] *)

(** What each item of the list gives, in the order of the list. *)
Definition harvested (world : nat -> nat -> fetch_outcome) (products : list Product.t)
    : list Scraped.t :=
  omap id (imap (fun i product => harvest_result (world i) product) products).

(** A run over two items in which every GET for the first item answers
    200 with [page] and every GET for the second one times out. *)
Definition second_item_times_out (page : Soup.t) (i attempt : nat) : fetch_outcome :=
  match i with
  | 1 => GetRaises TimeoutError
  | _ => GetResponds 200 (inr page)
  end.

(** A run over two items in which every GET for the first item times out
    and every GET for the second one answers 200 with [page]. *)
Definition first_item_times_out (page : Soup.t) (i attempt : nat) : fetch_outcome :=
  match i with
  | 0 => GetRaises TimeoutError
  | _ => GetResponds 200 (inr page)
  end.

(** ** Reading a run of the paging loop *)

(** The item a record of the listing adds to [all_products], if it adds
    one. *)
Definition listed (product : Listing.t) : option Product.t :=
  if truthy (Listing.productId product) then
    match Listing.webURL product with
    | Some web_url =>
        Some (Product.mk (Listing.productId product)
                (if startswith web_url "http" then web_url
                 else "https://luxury.tatacliq.com" +:+ web_url)
                (Listing.productname product) (Listing.brandname product))
    | None => None
    end
  else None.

(** The record makes the loop over the records raise: it has a product id
    and its ['webURL'] is not a string. *)
Definition record_raises (product : Listing.t) : bool :=
  truthy (Listing.productId product)
  && match Listing.webURL product with
     | None => true
     | Some _ => false
     end.

(** The records the loop gets through: those before the first one that
    raises. *)
Fixpoint processed (products : list Listing.t) : list Listing.t :=
  match products with
  | [] => []
  | product :: rest =>
      if record_raises product then [] else product :: processed rest
  end.

(** The answer for a page makes the loop [break]: the request raises or
    answers a status other than 200, the JSON cannot be read, a record
    raises, or the page holds fewer than 24 records (none included). *)
Definition page_stops (o : page_outcome) : bool :=
  match o with
  | RequestRaises => true
  | Responded status None => true
  | Responded status (Some products) =>
      negb (status =? 200)%Z
      || existsb record_raises products
      || (length products <? 24)
  end.

(** The items a page adds to [all_products]. *)
Definition page_items (o : page_outcome) : list Product.t :=
  match o with
  | RequestRaises => []
  | Responded status None => []
  | Responded status (Some products) =>
      if (status =? 200)%Z then omap listed (processed products) else []
  end.

(** The URLs of the GETs of a trace, in order. *)
Fixpoint requested_urls (t : trace) : list string :=
  match t with
  | [] => []
  | Get url :: t' => url :: requested_urls t'
  | Sleep _ :: t' => requested_urls t'
  | Print _ :: t' => requested_urls t'
  end.

(** The stop signals of a page as the specification lists them: the
    request fails (reading the answer included) or answers a status other
    than 200, the page holds no record, or it holds fewer than 24. *)
Definition signals_stop (o : page_outcome) : bool :=
  match o with
  | RequestRaises => true
  | Responded status None => true
  | Responded status (Some products) =>
      negb (status =? 200)%Z || (length products <? 24)
  end.

(** The claim that paging stops exactly on a signal from a page: some page
    [last] is the first to give one, and the pages 0 to [last] are the
    ones requested. *)
Definition stops_only_on_page_signal
    (catalog : nat -> page_outcome) (run : IO (list Product.t)) : Prop :=
  exists last,
    signals_stop (catalog last) = true
    /\ (forall page, page < last -> signals_stop (catalog page) = false)
    /\ count_gets (effects run) = S last.

(** The sizes of the pages 0, 1 and 2 of a catalog that answers 200 with
    readable JSON on them. *)
Definition page_sizes (catalog : nat -> page_outcome) : list nat :=
  omap (fun page =>
          match catalog page with
          | Responded 200 (Some products) => Some (length products)
          | _ => None
          end)
       (seq 0 3).

(** A catalog all of whose pages are full. *)
Definition full_catalog (page : nat) : page_outcome :=
  Responded 200 (Some (replicate 24 (Listing.mk "MP1" (Some "/p") "Gown" "Acme"))).

(** A catalog whose pages hold 24, 24 and 10 records. *)
Definition three_page_catalog (page : nat) : page_outcome :=
  match page with
  | 0 | 1 =>
      Responded 200 (Some (replicate 24 (Listing.mk "MP1" (Some "/p") "Gown" "Acme")))
  | _ =>
      Responded 200
        (Some (replicate 10 (Listing.mk "MP2" (Some "https://x/q") "Dress" "Acme")))
  end.

(** A catalog of one page, with two records that carry the same product
    id. *)
Definition duplicate_id_catalog (page : nat) : page_outcome :=
  Responded 200 (Some [Listing.mk "B" (Some "/b1") "Gown" "Acme";
                       Listing.mk "B" (Some "/b2") "Gown" "Acme"]).

(** A catalog of full pages, on the first of which the second record has
    a product id and a null ['webURL']. *)
Definition null_url_catalog (page : nat) : page_outcome :=
  match page with
  | 0 =>
      Responded 200
        (Some (Listing.mk "MP1" (Some "/p") "Gown" "Acme"
               :: Listing.mk "MP2" None "Dress" "Acme"
               :: replicate 22 (Listing.mk "MP3" (Some "/r") "Skirt" "Acme")))
  | _ => full_catalog page
  end.

(** A catalog whose pages hold 24, 24 and 10 records, the last 10 without
    a product id. *)
Definition missing_id_catalog (page : nat) : page_outcome :=
  match page with
  | 0 | 1 =>
      Responded 200 (Some (replicate 24 (Listing.mk "MP1" (Some "/p") "Gown" "Acme")))
  | _ =>
      Responded 200
        (Some (replicate 10 (Listing.mk EmptyString (Some "/q") "Dress" "Acme")))
  end.

(** ** [extract_search_text] *)

(** The regular expression [[?&](?:q|searchText)=([^&]+)], searched from
    the left as [re.search] does. *)

(** [[?&]] *)
Definition is_param_start (c : ascii) : bool :=
  Ascii.eqb c "?" || Ascii.eqb c "&".

(** [([^&]+)] at the start of [s], taken greedily: the longest run of
    characters other than [&]; [None] when the run is empty. *)
Fixpoint value_run (s : string) : string :=
  match s with
  | EmptyString => EmptyString
  | String c s' => if Ascii.eqb c "&" then EmptyString else String c (value_run s')
  end.

Definition group1 (s : string) : option string :=
  if truthy (value_run s) then Some (value_run s) else None.

(** What is left of [s] after the literal [pre], when [s] starts with it. *)
Fixpoint after_literal (pre s : string) {struct pre} : option string :=
  match pre, s with
  | EmptyString, _ => Some s
  | String _ _, EmptyString => None
  | String a pre', String b s' =>
      if Ascii.eqb a b then after_literal pre' s' else None
  end.

(** One alternative of [(?:q|searchText)] followed by [=([^&]+)]. *)
Definition alternative (name s : string) : option string :=
  match after_literal (name +:+ "=") s with
  | Some value => group1 value
  | None => None
  end.

(** [(?:q|searchText)=([^&]+)] at the start of [s]: the alternatives are
    tried in order. *)
Definition match_param (s : string) : option string :=
  match alternative "q" s with
  | Some v => Some v
  | None => alternative "searchText" s
  end.

(** [re.search(...)]: the match at the leftmost position that has one;
    the result is group 1. *)
Fixpoint re_search (url : string) : option string :=
  match url with
  | EmptyString => None
  | String c rest =>
      if is_param_start c then
        match match_param rest with
        | Some v => Some v
        | None => re_search rest
        end
      else re_search rest
  end.

Definition extract_search_text (url : string) : string :=
  match re_search url with
  | Some v => v
  | None => ":relevance:category:LSH1110101:inStockFlag:true"
  end.

(** Every character of [s] passes [p]. *)
Fixpoint all_chars (p : ascii -> bool) (s : string) : bool :=
  match s with
  | EmptyString => true
  | String c s' => p c && all_chars p s'
  end.

(** ** [scrape_all_products]: the harvester without retries

    The console lines of this function are left out of its trace, and with
    them its [debug] argument, which only adds lines. *)

(** The body of [for i, product in enumerate(all_products, 1)]: the record
    to append to [products_with_text], if any. The pause comes after the
    append; nothing after the append can raise. *)
Definition scrape_product_once (o : fetch_outcome) (product : Product.t)
    : IO (option Scraped.t) :=
  try_except
    (response ← session_get o (Product.url product);
     if negb (fst response =? 200)%Z then mret None
     else
       page ← read_and_parse (snd response);
       sleep 500;;
       mret (Some (scraped product page)))
    (fun _ => mret None).

(** The loop over the items; [world i] is what the GET for the item at
    position [i] of the list does. *)
Fixpoint scrape_pages_once (world : nat -> fetch_outcome) (i : nat)
    (products : list Product.t) (products_with_text : list Scraped.t)
    : IO (list Scraped.t) :=
  match products with
  | [] => mret products_with_text
  | product :: rest =>
      r ← scrape_product_once (world i) product;
      scrape_pages_once world (S i) rest
        (match r with
         | Some d => products_with_text ++ [d]
         | None => products_with_text
         end)
  end.

Definition scrape_all_products
    (catalog : nat -> page_outcome) (world : nat -> fetch_outcome)
    (search_text : string) : IO (list Scraped.t) :=
  all_products ← discover_sync catalog search_text;
  scrape_pages_once world 0 all_products [].

(** What each item gives when it is fetched once. *)
Definition harvested_once (world : nat -> fetch_outcome) (products : list Product.t)
    : list Scraped.t :=
  omap id (imap (fun i product => scraped product <$> page_of (world i)) products).

(** ** Cost and reporting of a run of [scrape_single_product] *)

(** The time a trace spends in pauses, in milliseconds. *)
Fixpoint total_sleep (t : trace) : Z :=
  match t with
  | [] => 0
  | Sleep ms :: t' => ms + total_sleep t'
  | Get _ :: t' => total_sleep t'
  | Print _ :: t' => total_sleep t'
  end.

(** The lines of a trace that report a failed item. *)
Fixpoint failure_lines (t : trace) : list line :=
  match t with
  | [] => []
  | Print (LFailedStatus index total mp_code status) :: t' =>
      LFailedStatus index total mp_code status :: failure_lines t'
  | Print (LTimeout index total mp_code) :: t' =>
      LTimeout index total mp_code :: failure_lines t'
  | Print (LError index total mp_code) :: t' =>
      LError index total mp_code :: failure_lines t'
  | _ :: t' => failure_lines t'
  end.

(** The line reports the item numbered [index] of [total], with id
    [mp_code]. *)
Definition reports (index total : nat) (mp_code : string) (l : line) : Prop :=
  match l with
  | LFailedStatus i t m _ => i = index /\ t = total /\ m = mp_code
  | LTimeout i t m => i = index /\ t = total /\ m = mp_code
  | LError i t m => i = index /\ t = total /\ m = mp_code
  | _ => False
  end.

(** ** Reading the curations in [main]

    The prompts and the console lines of this part of [main] are not
    modelled; the lines typed by the user are the input. *)

(** [c.isspace()] for an 8-bit character: tab to carriage return, the four
    separators 28 to 31, the space, NEL and the no-break space. *)
Definition isspace (c : ascii) : bool :=
  let n := nat_of_ascii c in
  ((9 <=? n) && (n <=? 13)) || ((28 <=? n) && (n <=? 32))
  || (n =? 133) || (n =? 160).

(** [s.lstrip()], [s.rstrip()], [s.strip()] *)
Fixpoint lstrip (s : string) : string :=
  match s with
  | EmptyString => EmptyString
  | String c s' => if isspace c then lstrip s' else s
  end.

Fixpoint rstrip (s : string) : string :=
  match s with
  | EmptyString => EmptyString
  | String c s' =>
      match rstrip s' with
      | EmptyString => if isspace c then EmptyString else String c EmptyString
      | String d r => String c (String d r)
      end
  end.

Definition strip (s : string) : string := rstrip (lstrip s).

(** [s.split(sep)] for a separator of one character: every occurrence
    cuts, and empty pieces are kept. *)
Fixpoint split (sep : ascii) (s : string) : list string :=
  match s with
  | EmptyString => [EmptyString]
  | String c s' =>
      if Ascii.eqb c sep then EmptyString :: split sep s'
      else match split sep s' with
           | piece :: pieces => String c piece :: pieces
           | [] => [String c EmptyString]
           end
  end.

(** [s.split(sep, 1)]: only the first occurrence cuts. *)
Fixpoint split_once (sep : ascii) (s : string) : list string :=
  match s with
  | EmptyString => [EmptyString]
  | String c s' =>
      if Ascii.eqb c sep then [EmptyString; s']
      else match split_once sep s' with
           | piece :: pieces => String c piece :: pieces
           | [] => [String c EmptyString]
           end
  end.

(** An entry of [curations]: keys ['name'] and ['keywords']. *)
Module Curation.
Record t := mk { name : string; keywords : list string }.
End Curation.

(** What [main] makes of one line typed at the prompt. *)
Inductive typed_line :=
  | TypedDone
  | TypedWithoutBar
  | TypedIncomplete
  | TypedCuration (c : Curation.t)
  | TypedUnpackError.

(** The body of the [while True] loop, from [input(...).strip()] on:
    [done] ends the loop, a line without a bar is refused with a warning,
    a line whose name or keyword list is empty is dropped without a word,
    any other line gives a curation. Unpacking [line.split('|', 1)] into
    two names raises unless the split gives two pieces. *)
Definition read_line (typed : string) : typed_line :=
  let line := strip typed in
  if String.eqb (lower line) "done" then TypedDone
  else if negb (contains "|" line) then TypedWithoutBar
  else
    match split_once "|" line with
    | [name; keywords_str] =>
        let keywords :=
          strip <$> List.filter (fun kw => truthy (strip kw)) (split "," keywords_str) in
        if truthy (strip name) && nonempty keywords
        then TypedCuration (Curation.mk (strip name) keywords)
        else TypedIncomplete
    | _ => TypedUnpackError
    end.

(** What reading the curations ends with. *)
Inductive reading :=
  | ReadAll (curations : list Curation.t) (unread : list string)
  | ReadEOF
  | ReadUnpackError.

(** The loop: lines are read until [done]; [input] raises [EOFError] when
    the input ends before that. *)
Fixpoint read_curations (typed : list string) (curations : list Curation.t) : reading :=
  match typed with
  | [] => ReadEOF
  | line :: rest =>
      match read_line line with
      | TypedDone => ReadAll curations rest
      | TypedWithoutBar => read_curations rest curations
      | TypedIncomplete => read_curations rest curations
      | TypedCuration c => read_curations rest (curations ++ [c])
      | TypedUnpackError => ReadUnpackError
      end
  end.

(** ** The filtering loop of [main] *)

(** [results[name] = ids] on a dict kept in insertion order: the value
    of an existing key is replaced where the key stands, a new key goes
    to the end. *)
Fixpoint dict_set (name : string) (ids : list string)
    (results : list (string * list string)) : list (string * list string) :=
  match results with
  | [] => [(name, ids)]
  | (name', ids') :: results' =>
      if String.eqb name' name then (name', ids) :: results'
      else (name', ids') :: dict_set name ids results'
  end.

(** [results.get(name)] *)
Fixpoint dict_get (name : string) (results : list (string * list string))
    : option (list string) :=
  match results with
  | [] => None
  | (name', ids') :: results' =>
      if String.eqb name' name then Some ids' else dict_get name results'
  end.

(** [for curation in curations: results[curation['name']] =
    filter_by_keywords(all_products_data, curation['keywords'])] *)
Definition filter_curations (all_products_data : list Scraped.t)
    (curations : list Curation.t) : list (string * list string) :=
  foldl (fun results curation =>
           dict_set (Curation.name curation)
                    (filter_by_keywords all_products_data (Curation.keywords curation))
                    results)
        [] curations.

(** The curation a typed line adds, if it adds one. *)
Definition accepted (typed : string) : option Curation.t :=
  match read_line typed with
  | TypedCuration c => Some c
  | _ => None
  end.

(** ** [scrape_and_filter_by_keywords]: one curation, matched while scraping

    The console lines of this function are left out of its trace; what
    the debug output evaluates is kept, because it can raise. *)

Module BroadSoup.
(** What [soup.find('meta', {...})] gives: no tag, a tag without the
    [content] attribute, or a tag with it. *)
Inductive meta :=
  | NoTag
  | TagWithoutContent
  | TagWithContent (content : string).

(** One element found for a feature keyword that has a parent: the text of
    the parent, and the text of the parent's next sibling when there is
    one. *)
Record find := mk_find { parent_text : string; sibling_text : option string }.

(** The finds of the page: the two meta tags, [soup.get_text(...)], and
    the elements found for the feature keywords, in the order in which the
    two loops visit them. *)
Record t := mk
  { meta_desc : meta;
    meta_keywords : meta;
    all_text : string;
    feature_finds : list find }.
End BroadSoup.

(** [meta.get('content')] for a tag that was found. *)
Definition meta_content (m : BroadSoup.meta) : option string :=
  match m with
  | BroadSoup.NoTag => None
  | BroadSoup.TagWithoutContent => None
  | BroadSoup.TagWithContent content => Some content
  end.

Definition find_parts (f : BroadSoup.find) : list string :=
  BroadSoup.parent_text f ::
  match BroadSoup.sibling_text f with
  | Some sibling => [sibling]
  | None => []
  end.

Definition broad_parts (product : Product.t) (page : BroadSoup.t) : list string :=
  [Product.title product; Product.brand product]
  ++ meta_part (meta_content (BroadSoup.meta_desc page))
  ++ meta_part (meta_content (BroadSoup.meta_keywords page))
  ++ [BroadSoup.all_text page]
  ++ flat_map find_parts (BroadSoup.feature_finds page).

Definition broad_text (product : Product.t) (page : BroadSoup.t) : string :=
  lower (join " " (List.filter truthy (broad_parts product page))).

(** What one [requests.get] of an item page does, with the finds of this
    function. *)
Inductive broad_outcome :=
  | BroadRaises
  | BroadResponds (status : Z) (body : exn + BroadSoup.t).

Definition broad_get (o : broad_outcome) (url : string) : IO (Z * (exn + BroadSoup.t)) :=
  emit (Get url);;
  match o with
  | BroadRaises => raise OtherException
  | BroadResponds status body => mret (status, body)
  end.

Definition broad_read (body : exn + BroadSoup.t) : IO BroadSoup.t :=
  match body with
  | inl e => raise e
  | inr page => mret page
  end.

(** The debug output evaluates [meta_desc['content'][:200] if meta_desc
    else 'None']: a tag is true even without attributes, and subscripting
    it with a missing attribute raises [KeyError]. *)
Definition debug_output (page : BroadSoup.t) : IO unit :=
  match BroadSoup.meta_desc page with
  | BroadSoup.TagWithoutContent => raise OtherException
  | BroadSoup.NoTag => mret tt
  | BroadSoup.TagWithContent _ => mret tt
  end.

(** The body of [for i, product in enumerate(all_products, 1)]: the id to
    append to [filtered_mp_codes], if any. *)
Definition check_product (o : broad_outcome) (keywords_lower : list string)
    (debug : bool) (i : nat) (product : Product.t) : IO (option string) :=
  try_except
    (response ← broad_get o (Product.url product);
     if negb (fst response =? 200)%Z then mret None
     else
       page ← broad_read (snd response);
       let searchable_text := broad_text product page in
       (if debug && (i <=? 3) then debug_output page else mret tt);;
       let matches :=
         List.filter (fun keyword => contains keyword searchable_text) keywords_lower in
       sleep 500;;
       mret (if nonempty matches then Some (Product.mp_code product) else None))
    (fun _ => mret None).

(** The loop over the items; [world j] is what the GET for the item at
    position [j] of the list does, and the item is numbered [S j]. *)
Fixpoint check_products (world : nat -> broad_outcome) (keywords_lower : list string)
    (debug : bool) (j : nat) (products : list Product.t)
    (filtered_mp_codes : list string) : IO (list string) :=
  match products with
  | [] => mret filtered_mp_codes
  | product :: rest =>
      r ← check_product (world j) keywords_lower debug (S j) product;
      check_products world keywords_lower debug (S j) rest
        (match r with
         | Some mp_code => filtered_mp_codes ++ [mp_code]
         | None => filtered_mp_codes
         end)
  end.

Definition scrape_and_filter_by_keywords
    (catalog : nat -> page_outcome) (world : nat -> broad_outcome)
    (search_text : string) (keywords : list string) (debug : bool)
    : IO (list string) :=
  let keywords_lower := lower <$> keywords in
  all_products ← discover_single catalog search_text;
  check_products world keywords_lower debug 0 all_products [].

(** The page an item ends with in this function: its GET answers 200, the
    body reads and parses, and the debug output, when it is made for the
    item, does not raise. *)
Definition checked_page (debug : bool) (j : nat) (o : broad_outcome)
    : option BroadSoup.t :=
  match o with
  | BroadRaises => None
  | BroadResponds status (inl _) => None
  | BroadResponds status (inr page) =>
      if (status =? 200)%Z then
        match BroadSoup.meta_desc page with
        | BroadSoup.TagWithoutContent =>
            if debug && (S j <=? 3) then None else Some page
        | _ => Some page
        end
      else None
  end.

(** The record the other functions would store for the item. *)
Definition broad_scraped (product : Product.t) (page : BroadSoup.t) : Scraped.t :=
  Scraped.mk (Product.mp_code product) (broad_text product page)
             (Product.title product) (Product.brand product).

(** The corpus of the items, given the page each one ends with. *)
Definition broad_corpus (pages : nat -> option BroadSoup.t) (products : list Product.t)
    : list Scraped.t :=
  omap id (imap (fun j product => broad_scraped product <$> pages j) products).

(** The number of pages among [pages] that let the paging loop go on. *)
Definition full_pages (catalog : nat -> page_outcome) (pages : list nat) : nat :=
  length (List.filter (fun page => negb (page_stops (catalog page))) pages).

(** ** [main] of the asynchronous script

    The lines typed by the user are the input; prompts and console lines
    are not modelled, and the file written by [save_multiple_curations] is
    represented by the results handed to it. *)

(** How a run of [main] ends. *)
Inductive main_end :=
  | EndOfInput
  | UnpackError
  | NoCurations
  | NeverGathered
  | NoProducts
  | Saved (results : list (string * list string)).

Definition default_url : string :=
  "https://luxury.tatacliq.com/luxury/c-lsh1110101?q=%3Arelevance%3Acategory%3ALSH1110101%3AinStockFlag%3Atrue".

(** [input(...)]: the next typed line, or [EOFError]. The steps of [main]
    in order: the URL (the default when left empty), the curations, the
    debug answer, the Enter that starts the scraping, the scraping, the
    filtering loop, the save. *)
Definition main (typed : list string)
    (catalog : nat -> page_outcome) (world : nat -> nat -> fetch_outcome)
    (order : list nat) : main_end :=
  match typed with
  | [] => EndOfInput
  | url_line :: typed =>
      let url := strip url_line in
      let url := if negb (truthy url) then default_url else url in
      match read_curations typed [] with
      | ReadEOF => EndOfInput
      | ReadUnpackError => UnpackError
      | ReadAll curations typed =>
          if negb (nonempty curations) then NoCurations
          else
            match typed with
            | [] => EndOfInput
            | debug_line :: typed =>
                let debug := String.eqb (lower (strip debug_line)) "y" in
                match typed with
                | [] => EndOfInput
                | _ :: _ =>
                    match scrape_all_products_async catalog world order
                            (extract_search_text url) debug with
                    | None => NeverGathered
                    | Some all_products_data =>
                        if negb (nonempty all_products_data) then NoProducts
                        else Saved (filter_curations all_products_data curations)
                    end
                end
            end
      end
  end.

(** * Properties *)


(** ** Strings *)

Lemma startswith_spec s pre :
  startswith s pre = true <-> exists after, s = pre +:+ after.
Proof.
  revert s; induction pre as [|a pre IH]; intros s; simpl.
  - split; [intros _; by exists s | done].
  - destruct s as [|b s].
    + split; [done | intros [after H]; discriminate].
    + destruct (Ascii.eqb_spec a b) as [->|Hne].
      * rewrite IH. split; intros [after H]; exists after.
        -- by rewrite H.
        -- by injection H.
      * split; [done | intros [after H]; injection H; congruence].
Qed.

Lemma contains_spec kw text : contains kw text = true <-> is_substring kw text.
Proof.
  unfold is_substring. induction text as [|c text IH]; simpl.
  - rewrite orb_false_r, startswith_spec. split.
    + intros [after H]. by exists EmptyString, after.
    + intros [[|b before] [after H]]; [by exists after | discriminate].
  - rewrite orb_true_iff, IH, startswith_spec. split.
    + intros [[after H]|(before & after & H)].
      * by exists EmptyString, after.
      * exists (String c before), after. simpl. by rewrite H.
    + intros ([|b before] & after & H).
      * left. by exists after.
      * right. exists before, after. by injection H.
Qed.

Lemma append_cons c s1 s2 : String c s1 +:+ s2 = String c (s1 +:+ s2).
Proof. reflexivity. Qed.

Lemma append_assoc s1 s2 s3 : (s1 +:+ s2) +:+ s3 = s1 +:+ (s2 +:+ s3).
Proof. induction s1 as [|c s1 IH]; [done | by rewrite !append_cons, IH]. Qed.

Lemma append_empty_r s : s +:+ EmptyString = s.
Proof. induction s as [|c s IH]; [done | by rewrite append_cons, IH]. Qed.

Lemma lower_char_idemp c : lower_char (lower_char c) = lower_char c.
Proof. by destruct c as [[] [] [] [] [] [] [] []]. Qed.

Lemma lower_idemp s : lower (lower s) = lower s.
Proof. induction s as [|c s IH]; [done | simpl; rewrite lower_char_idemp; by f_equal]. Qed.

Lemma lower_app s1 s2 : lower (s1 +:+ s2) = lower s1 +:+ lower s2.
Proof. induction s1 as [|c s1 IH]; [done | by rewrite append_cons; simpl; rewrite IH]. Qed.

Lemma is_substring_lower kw text :
  is_substring kw text -> is_substring (lower kw) (lower text).
Proof.
  intros (before & after & ->). exists (lower before), (lower after).
  by rewrite !lower_app.
Qed.

Lemma is_substring_trans a b c :
  is_substring a b -> is_substring b c -> is_substring a c.
Proof.
  intros (p1 & q1 & ->) (p2 & q2 & ->).
  exists (p2 +:+ p1), (q1 +:+ q2).
  by rewrite !append_assoc.
Qed.

(** ** The loops of [filter_by_keywords] *)

Lemma St_bind_run {A B} (m : St A) (k : A -> St B) f :
  (m ≫= k) f = k (m f).1 (m f).2.
Proof. unfold mbind, St_bind. by destruct (m f). Qed.

Ltac run_St := repeat (rewrite St_bind_run; simpl).

Lemma keyword_loop product kl f :
  for_each kl (keyword_body product) f =
  (tt, mk_frame (products_data f) (keywords f) (keywords_lower f)
                (matched_mp_codes f)
                (matches f ++
                   List.filter (fun k => contains k (Scraped.searchable_text product)) kl)).
Proof.
  revert f; induction kl as [|k kl IH]; intros [pd kws kwl mm m]; simpl.
  - by rewrite app_nil_r.
  - run_St. rewrite IH. unfold keyword_body.
    destruct (contains k _); simpl; [by rewrite <- app_assoc | done].
Qed.

Lemma nonempty_filter_existsb {A} (p : A -> bool) l :
  nonempty (List.filter p l) = existsb p l.
Proof. induction l as [|x l IH]; simpl; [done | destruct (p x); simpl; done]. Qed.

Lemma product_body_run r f :
  product_body r f =
  (tt, mk_frame (products_data f) (keywords f) (keywords_lower f)
                (matched_mp_codes f ++
                   (if any_keyword_in (keywords_lower f) r then [Scraped.mp_code r] else []))
                (List.filter (fun k => contains k (Scraped.searchable_text r))
                             (keywords_lower f))).
Proof.
  destruct f as [pd kws kwl mm m]. unfold product_body. run_St.
  rewrite keyword_loop. simpl. rewrite nonempty_filter_existsb.
  fold (any_keyword_in kwl r).
  destruct (any_keyword_in kwl r); simpl; [done | by rewrite app_nil_r].
Qed.

Lemma product_loop pd f :
  exists m,
    for_each pd product_body f =
    (tt, mk_frame (products_data f) (keywords f) (keywords_lower f)
                  (matched_mp_codes f ++
                    (Scraped.mp_code <$> List.filter (any_keyword_in (keywords_lower f)) pd))
                  m).
Proof.
  revert f; induction pd as [|r pd IH]; intros [pd0 kws kwl mm m0]; simpl.
  - exists m0. by rewrite app_nil_r.
  - run_St. rewrite product_body_run. simpl.
    edestruct IH as [m ->]. exists m. simpl.
    destruct (any_keyword_in kwl r); simpl; [by rewrite <- app_assoc | by rewrite app_nil_r].
Qed.

(** A call returns the ids of the results that pass the test, and leaves
    both arguments as they were. *)
Lemma call_filter_by_keywords_eq pd kws :
  exists kl m,
    call_filter_by_keywords pd kws =
    (Scraped.mp_code <$> List.filter (any_keyword_in (lower <$> kws)) pd,
     mk_frame pd kws kl (Scraped.mp_code <$> List.filter (any_keyword_in (lower <$> kws)) pd) m).
Proof.
  unfold call_filter_by_keywords, filter_by_keywords_body. run_St.
  edestruct product_loop as [m ->]. simpl. by exists (lower <$> kws), m.
Qed.

Lemma filter_by_keywords_eq pd kws :
  filter_by_keywords pd kws =
  Scraped.mp_code <$> List.filter (any_keyword_in (lower <$> kws)) pd.
Proof.
  unfold filter_by_keywords.
  destruct (call_filter_by_keywords_eq pd kws) as (kl & m & ->). done.
Qed.

Lemma any_keyword_in_spec kws r :
  any_keyword_in (lower <$> kws) r = true <-> group_matches kws r.
Proof.
  unfold any_keyword_in, group_matches. rewrite existsb_exists.
  split; intros (kw & Hin & Hc); exists kw.
  - split; [by apply list_elem_of_In | by apply contains_spec].
  - split; [by apply list_elem_of_In | by apply contains_spec].
Qed.

Lemma keyword_filter_complete kws corpus :
  keyword_filter kws corpus (filter_by_keywords corpus kws).
Proof.
  rewrite filter_by_keywords_eq.
  induction corpus as [|r corpus IH]; simpl; [constructor|].
  destruct (any_keyword_in (lower <$> kws) r) eqn:E.
  - apply kf_match; [by apply any_keyword_in_spec | done].
  - apply kf_skip; [|done].
    rewrite <- any_keyword_in_spec. by rewrite E.
Qed.

Lemma keyword_filter_functional kws corpus ids :
  keyword_filter kws corpus ids -> ids = filter_by_keywords corpus kws.
Proof.
  rewrite filter_by_keywords_eq.
  induction 1 as [|r corpus ids Hm _ IH|r corpus ids Hm _ IH]; simpl; [done| |].
  - apply any_keyword_in_spec in Hm. rewrite Hm. simpl. by rewrite IH.
  - rewrite <- any_keyword_in_spec in Hm.
    destruct (any_keyword_in (lower <$> kws) r); [done | by rewrite IH].
Qed.

(** C1. For every corpus and every list of keywords, [filter_by_keywords]
    returns exactly the ids of the results whose searchable text has one
    of the lowercased keywords as a substring, in the order of the corpus,
    one id per matching result however many keywords match; on the corpus
    A "red sequin gown", B "plain cotton dress" with keywords sequin,
    beaded it returns [A], and a text that holds both keywords still
    yields its id once. *)
Theorem filter_by_keywords_exact :
  (forall corpus kws ids,
     keyword_filter kws corpus ids <-> ids = filter_by_keywords corpus kws)
  /\ filter_by_keywords
       [Scraped.mk "A" "red sequin gown" EmptyString EmptyString;
        Scraped.mk "B" "plain cotton dress" EmptyString EmptyString]
       ["sequin"; "beaded"] = ["A"]
  /\ filter_by_keywords
       [Scraped.mk "A" "red sequin beaded gown" EmptyString EmptyString]
       ["sequin"; "beaded"] = ["A"].
Proof.
  split; [|split; reflexivity].
  intros corpus kws ids. split.
  - apply keyword_filter_functional.
  - intros ->. apply keyword_filter_complete.
Qed.

Lemma filter_by_keywords_exact_witness :
  keyword_filter ["sequin"; "beaded"]
    [Scraped.mk "A" "red sequin gown" EmptyString EmptyString; Scraped.mk "B" "plain cotton dress" EmptyString EmptyString]
    ["A"].
Proof.
  apply (proj1 filter_by_keywords_exact). reflexivity.
Defined.

(** C8. A call of [filter_by_keywords] leaves the corpus and the keyword
    list it was given unchanged, and a second call on them returns the
    same ids (and ends in the same frame) as the first. *)
Theorem filter_by_keywords_pure corpus kws :
  products_data (call_filter_by_keywords corpus kws).2 = corpus
  /\ keywords (call_filter_by_keywords corpus kws).2 = kws
  /\ call_filter_by_keywords
       (products_data (call_filter_by_keywords corpus kws).2)
       (keywords (call_filter_by_keywords corpus kws).2)
     = call_filter_by_keywords corpus kws
  /\ filter_by_keywords
       (products_data (call_filter_by_keywords corpus kws).2)
       (keywords (call_filter_by_keywords corpus kws).2)
     = filter_by_keywords corpus kws.
Proof.
  destruct (call_filter_by_keywords_eq corpus kws) as (kl & m & E).
  assert (Hpd : products_data (call_filter_by_keywords corpus kws).2 = corpus)
    by (by rewrite E).
  assert (Hkw : keywords (call_filter_by_keywords corpus kws).2 = kws)
    by (by rewrite E).
  by rewrite Hpd, Hkw.
Qed.

Lemma elem_of_filter_by_keywords corpus kws id :
  id ∈ filter_by_keywords corpus kws <->
  exists r, r ∈ corpus /\ group_matches kws r /\ Scraped.mp_code r = id.
Proof.
  rewrite filter_by_keywords_eq, list_elem_of_fmap. split.
  - intros (r & -> & Hr). apply list_elem_of_In, filter_In in Hr as [Hin Hm].
    exists r. split; [by apply list_elem_of_In|]. split; [by apply any_keyword_in_spec | done].
  - intros (r & Hin & Hm & <-). exists r. split; [done|].
    apply list_elem_of_In, filter_In. split; [by apply list_elem_of_In | by apply any_keyword_in_spec].
Qed.

(** C7. Keyword matching is case-insensitive: the harvester stores the
    page text lowercased, and the filter lowercases the keywords, so a
    keyword matches a harvested result whenever the text gathered from the
    page holds the keyword in any casing. A group with the keyword Sequin
    matches a result harvested from a page that says sequin or SEQUIN. *)
Theorem harvested_match_ignores_case corpus kws product page kw s :
  scraped product page ∈ corpus ->
  kw ∈ kws ->
  lower s = lower kw ->
  is_substring s (join " " (List.filter truthy (searchable_parts product page))) ->
  Product.mp_code product ∈ filter_by_keywords corpus kws.
Proof.
  intros Hin Hkw Hs Hsub. apply elem_of_filter_by_keywords.
  exists (scraped product page). split; [done|]. split; [|done].
  exists (lower kw). split; [by apply list_elem_of_fmap_2|].
  rewrite <- Hs. simpl. unfold searchable_text_of. by apply is_substring_lower.
Qed.

Lemma harvested_match_ignores_case_witness :
  Product.mp_code (Product.mk "A" "https://x/a" "Red gown" "Acme")
  ∈ filter_by_keywords
      [scraped (Product.mk "A" "https://x/a" "Red gown" "Acme")
               (Soup.mk (Some "All-over SEQUIN work") None [])]
      ["Sequin"].
Proof.
  apply (harvested_match_ignores_case
           [scraped (Product.mk "A" "https://x/a" "Red gown" "Acme")
                    (Soup.mk (Some "All-over SEQUIN work") None [])]
           ["Sequin"]
           (Product.mk "A" "https://x/a" "Red gown" "Acme")
           (Soup.mk (Some "All-over SEQUIN work") None [])
           "Sequin" "SEQUIN").
  - by left.
  - by left.
  - reflexivity.
  - by apply contains_spec.
Defined.

(** ** Runs of the network code *)

Lemma IO_bind_run {A B} (m : IO A) (k : A -> IO B) :
  m ≫= k =
  match outcome m with
  | inl e => (inl e, effects m)
  | inr a => (outcome (k a), effects m ++ effects (k a))
  end.
Proof. destruct m as [[e|a] t]; simpl; [done|]. by destruct (k a). Qed.


Lemma count_gets_app t1 t2 : count_gets (t1 ++ t2) = count_gets t1 + count_gets t2.
Proof. unfold count_gets. by rewrite List.filter_app, length_app. Qed.

Lemma count_gets_quiet t : quiet t -> count_gets t = 0.
Proof.
  unfold count_gets. induction 1 as [|ev t Hev _ IH]; simpl; [done|].
  by rewrite Hev.
Qed.

(** A stretch without GETs followed by nothing, or by a pause, adds no
    entry to [waits_before_gets]. *)
Lemma waits_quiet_end t : quiet t -> waits_before_gets t = [].
Proof.
  induction 1 as [|ev t Hev Hq IH]; [done|].
  destruct ev as [ms|u|l]; simpl in *; [|done|done].
  destruct Hq as [|ev' t' Hev' Hq']; [done|].
  destruct ev'; simpl in *; done.
Qed.

Lemma waits_quiet_sleep t ms rest :
  quiet t ->
  waits_before_gets (t ++ Sleep ms :: rest) = waits_before_gets (Sleep ms :: rest).
Proof.
  induction 1 as [|ev t Hev Hq IH]; [done|].
  destruct ev as [ms'|u|l]; [|done|exact IH].
  change ((Sleep ms' :: t) ++ Sleep ms :: rest)
    with (Sleep ms' :: (t ++ Sleep ms :: rest)).
  destruct Hq as [|ev' t' Hev' Hq'].
  - done.
  - destruct ev'; try done.
Qed.

Section one_item.
Variable w : nat -> fetch_outcome.
Variable product : Product.t.
Variables index total : nat.
Variable show_debug : bool.

Local Abbreviation attempt_body := (attempt_body w product index total show_debug).
Local Abbreviation for_attempts := (for_attempts w product index total show_debug).
Local Abbreviation scrape_single_product :=
  (scrape_single_product w product index total show_debug).

(** One pass through the loop body: a pause of [200 * attempt], the GET,
    then no further GET; the pass returns the scraped record when the
    attempt ends with a page, goes to the next attempt when it fails
    before the last one, and returns [None] when the last one fails. *)
Lemma attempt_body_run attempt :
  exists tail,
    attempt_body attempt =
    (inr (match page_of (w attempt) with
          | Some page => Return (Some (scraped product page))
          | None => if attempt <? 2 then Continue else Return None
          end),
     Sleep (200 * Z.of_nat attempt) :: Get (Product.url product) :: tail)
    /\ quiet tail.
Proof.
  unfold attempt_body, session_get, read_and_parse, when, sleep, print, emit, raise.
  generalize (index mod 100 =? 0); intros progress.
  generalize (attempt <? 2); intros retry.
  destruct (w attempt) as [[]|status [[]|page]]; simpl;
    try destruct (status =? 200)%Z; simpl;
    destruct retry, progress, show_debug; simpl;
    eexists; (split; [reflexivity|]); repeat constructor.
Qed.
Lemma waits_attempt ms u tail rest :
  quiet tail ->
  (rest = [] \/ exists ms' rest', rest = Sleep ms' :: rest') ->
  waits_before_gets (Sleep ms :: Get u :: tail ++ rest) = Some ms :: waits_before_gets rest.
Proof.
  intros Hq [->|(ms' & rest' & ->)]; simpl; f_equal.
  - rewrite app_nil_r. by apply waits_quiet_end.
  - by apply waits_quiet_sleep.
Qed.

Lemma count_gets_attempt ms u tail rest :
  quiet tail ->
  count_gets (Sleep ms :: Get u :: tail ++ rest) = S (count_gets rest).
Proof.
  intros Hq. change (Sleep ms :: Get u :: tail ++ rest)
    with ([Sleep ms; Get u] ++ tail ++ rest).
  rewrite !count_gets_app, (count_gets_quiet tail) by done. done.
Qed.

(** The whole run: it never raises, returns the record scraped from the
    first attempt that ends with a page, makes one GET per attempt up to
    that one, and sleeps [200 * attempt] right before the GET of each
    attempt. *)
Lemma scrape_single_product_run :
  exists t,
    scrape_single_product = (inr (harvest_result w product), Sleep 300 :: t)
    /\ waits_before_gets (Sleep 300 :: t) =
         (fun attempt => Some (200 * Z.of_nat attempt)%Z) <$> seq 0 (attempts_made w)
    /\ count_gets (Sleep 300 :: t) = attempts_made w.
Proof.
  destruct (attempt_body_run 0) as (t0 & E0 & Q0).
  destruct (attempt_body_run 1) as (t1 & E1 & Q1).
  destruct (attempt_body_run 2) as (t2 & E2 & Q2).
  unfold scrape_single_product, harvest_result, attempts_made, sleep, emit.
  simpl seq. simpl for_attempts. simpl first_success.
  rewrite E0, E1, E2. clear E0 E1 E2.
  change (count_gets (Sleep 300 :: ?t)) with (count_gets t).
  destruct (page_of (w 0)) as [page0|]; simpl.
  { eexists. split; [reflexivity|]. split.
    - rewrite (waits_attempt _ _ t0 []); [done|done|by left].
    - unfold count_gets; simpl. fold (count_gets (t0 ++ [])).
      rewrite count_gets_app, count_gets_quiet; done. }
  destruct (page_of (w 1)) as [page1|]; simpl.
  { eexists. split; [reflexivity|]. split.
    - rewrite waits_attempt; [|done|right; eauto].
      rewrite (waits_attempt _ _ t1 []); [done|done|by left].
    - rewrite count_gets_attempt by done.
      rewrite (count_gets_attempt _ _ t1 []) by done. done. }
  destruct (page_of (w 2)) as [page2|]; simpl.
  all: eexists; (split; [reflexivity|]); split.
  all: try (rewrite waits_attempt; [|done|right; eauto];
            rewrite waits_attempt; [|done|right; eauto];
            rewrite (waits_attempt _ _ t2 []); [done|done|by left]).
  all: rewrite count_gets_attempt by done;
       rewrite count_gets_attempt by done;
       rewrite (count_gets_attempt _ _ t2 []) by done; done.
Qed.
End one_item.

Lemma fetch_fails_page_of o : fetch_fails o = true -> page_of o = None.
Proof.
  destruct o as [e|status [e|page]]; simpl; try done.
  by destruct (status =? 200)%Z.
Qed.

Lemma extraction_fails_page_of o : extraction_fails o = true -> page_of o = None.
Proof. by destruct o as [e|status [e|page]]. Qed.

Lemma first_success_at w attempt page :
  attempt < 3 ->
  (forall earlier, earlier < attempt -> page_of (w earlier) = None) ->
  page_of (w attempt) = Some page ->
  first_success w (seq 0 3) = Some (attempt, page).
Proof.
  intros Hlt Hbefore Hpage. simpl.
  destruct attempt as [|[|[|?]]]; [| | |lia].
  - by rewrite Hpage.
  - by rewrite (Hbefore 0), Hpage by lia.
  - by rewrite (Hbefore 0), (Hbefore 1), Hpage by lia.
Qed.

Lemma first_success_none w :
  (forall attempt, attempt < 3 -> page_of (w attempt) = None) ->
  first_success w (seq 0 3) = None.
Proof. intros H. simpl. by rewrite !H by lia. Qed.


(** Pauses in a stretch without GETs add up to the wait before the next
    GET. *)
Lemma pauses_from_quiet slept t rest :
  quiet t -> pauses_from slept (t ++ rest) = pauses_from (slept + total_sleep t) rest.
Proof.
  intros Hq. revert slept. induction Hq as [|ev t Hev _ IH]; intros slept.
  - simpl. by rewrite Z.add_0_r.
  - destruct ev as [ms|u|l]; [|done|]; simpl.
    + rewrite IH. by rewrite Z.add_assoc.
    + apply IH.
Qed.

Lemma pauses_attempt slept ms u tail rest :
  quiet tail ->
  pauses_from slept (Sleep ms :: Get u :: tail ++ rest) =
  (slept + ms)%Z :: pauses_from (total_sleep tail) rest.
Proof. intros Hq. simpl. by rewrite pauses_from_quiet. Qed.

Section one_item_pauses.
Variable w : nat -> fetch_outcome.
Variable product : Product.t.
Variables index total : nat.
Variable show_debug : bool.

(** One pass through the loop body sleeps after its GET only in an
    [except] clause that goes to the next attempt: one second. *)
Lemma attempt_body_pause attempt :
  exists tail,
    attempt_body w product index total show_debug attempt =
    (inr (match page_of (w attempt) with
          | Some page => Return (Some (scraped product page))
          | None => if attempt <? 2 then Continue else Return None
          end),
     Sleep (200 * Z.of_nat attempt) :: Get (Product.url product) :: tail)
    /\ quiet tail
    /\ total_sleep tail =
       if attempt_raises (w attempt) && (attempt <? 2) then 1000%Z else 0%Z.
Proof.
  unfold attempt_body, session_get, read_and_parse, when, sleep, print, emit, raise.
  generalize (index mod 100 =? 0); intros progress.
  generalize (attempt <? 2); intros retry.
  destruct (w attempt) as [[]|status [[]|page]]; simpl;
    try destruct (status =? 200)%Z; simpl;
    destruct retry, progress, show_debug; simpl;
    eexists; (split; [reflexivity|]); (split; [repeat constructor|]); reflexivity.
Qed.

(** The wait before the GET of each attempt of a run: the initial 300 ms
    before the first; before a later one, the second slept by the
    [except] clause when the attempt before raised, then
    [200 * attempt]. *)
Lemma scrape_single_product_pauses :
  pauses_before_gets (effects (scrape_single_product w product index total show_debug)) =
  (fun attempt =>
     (match attempt with
      | O => 300
      | S previous => if attempt_raises (w previous) then 1000 else 0
      end + 200 * Z.of_nat attempt)%Z) <$> seq 0 (attempts_made w).
Proof.
  destruct (attempt_body_pause 0) as (t0 & E0 & Q0 & S0).
  destruct (attempt_body_pause 1) as (t1 & E1 & Q1 & S1).
  destruct (attempt_body_pause 2) as (t2 & E2 & Q2 & S2).
  unfold scrape_single_product, attempts_made, sleep, emit, pauses_before_gets.
  simpl seq. simpl for_attempts. simpl first_success.
  rewrite E0, E1, E2. clear E0 E1 E2.
  change (1 <? 2) with true in *. change (0 <? 2) with true in *.
  rewrite andb_true_r in S0, S1.
  destruct (page_of (w 0)) as [page0|]; simpl effects.
  { change (pauses_from 0 (Sleep 300 :: ?t)) with (pauses_from (0 + 300) t).
    rewrite (pauses_attempt _ _ _ t0 []) by done. reflexivity. }
  destruct (page_of (w 1)) as [page1|]; simpl effects.
  { change (pauses_from 0 (Sleep 300 :: ?t)) with (pauses_from (0 + 300) t).
    rewrite pauses_attempt by done. rewrite (pauses_attempt _ _ _ t1 []) by done.
    rewrite S0. cbn [fmap list_fmap seq]. destruct (attempt_raises (w 0)); reflexivity. }
  destruct (page_of (w 2)) as [page2|]; simpl effects.
  all: change (pauses_from 0 (Sleep 300 :: ?t)) with (pauses_from (0 + 300) t);
       rewrite pauses_attempt by done; rewrite pauses_attempt by done;
       rewrite (pauses_attempt _ _ _ t2 []) by done;
       rewrite S0, S1; cbn [fmap list_fmap seq]; destruct (attempt_raises (w 0)), (attempt_raises (w 1)); reflexivity.
Qed.
End one_item_pauses.

(** C4, as stated, fails: when the GETs of attempts 0 and 1 time out, the
    run waits 1200 ms before attempt 1 and 1400 ms before attempt 2, which
    are not one and two times any backoff unit. *)
Lemma backoff_not_linear_after_exception :
  pauses_before_gets
    (effects (scrape_single_product
                (two_timeouts_then_page (Soup.mk (Some "Hand-beaded") None []))
                (Product.mk "A" "https://x/a" "Gown" "Acme") 1 1 false)) =
    [300; 1200; 1400]%Z
  /\ ~ exists initialDelay backoffUnit : Z,
         pauses_before_gets
           (effects (scrape_single_product
                       (two_timeouts_then_page (Soup.mk (Some "Hand-beaded") None []))
                       (Product.mk "A" "https://x/a" "Gown" "Acme") 1 1 false)) =
         [initialDelay + 0 * backoffUnit; 1 * backoffUnit; 2 * backoffUnit]%Z.
Proof.
  assert (E : pauses_before_gets
                (effects (scrape_single_product
                            (two_timeouts_then_page (Soup.mk (Some "Hand-beaded") None []))
                            (Product.mk "A" "https://x/a" "Gown" "Acme") 1 1 false)) =
              [300; 1200; 1400]%Z) by reflexivity.
  split; [exact E|].
  rewrite E. intros (initialDelay & backoffUnit & [= _ H1 H2]). lia.
Qed.

(** C4, amended. For an item of a list that is not empty, every run of
    [scrape_single_product] waits before the GET of attempt number
    [attempt]: the initial 300 ms on attempt 0; on a later attempt, 1000 ms
    when the attempt before ended in an exception (the GET raised or timed
    out, or the body of a 200 answer could not be read), nothing more when
    it answered a status other than 200; then the backoff of
    [200 * attempt] ms (0, 200, 400), slept right before the GET. The item
    is tried again while the fetch raises or answers a status other than
    200 and attempts remain; the first attempt that answers 200 with a
    body that reads and parses ends the run with the record scraped from
    that body. With status 500 on attempts 0 and 1 and status 200 on
    attempt 2, the record is the one scraped from the body of attempt 2,
    after three GETs and waits of 300, 200 and 400 ms. *)
Theorem retry_with_backoff_and_exception_pause w product index total show_debug :
  0 < total ->
  pauses_before_gets (effects (scrape_single_product w product index total show_debug)) =
    (fun attempt =>
       (match attempt with
        | O => 300
        | S previous => if attempt_raises (w previous) then 1000 else 0
        end + 200 * Z.of_nat attempt)%Z) <$> seq 0 (attempts_made w)
  /\ waits_before_gets (effects (scrape_single_product w product index total show_debug)) =
       (fun attempt => Some (200 * Z.of_nat attempt)%Z) <$> seq 0 (attempts_made w)
  /\ count_gets (effects (scrape_single_product w product index total show_debug)) =
       attempts_made w
  /\ (forall attempt page,
        attempt < 3 ->
        (forall earlier, earlier < attempt -> fetch_fails (w earlier) = true) ->
        w attempt = GetResponds 200 (inr page) ->
        attempts_made w = S attempt
        /\ outcome (scrape_single_product w product index total show_debug) =
             inr (Some (scraped product page)))
  /\ (forall body0 body1 page,
        outcome (scrape_single_product (two_failures_then_page body0 body1 page)
                                       product index total show_debug) =
          inr (Some (scraped product page))
        /\ count_gets (effects (scrape_single_product
                                  (two_failures_then_page body0 body1 page)
                                  product index total show_debug)) = 3
        /\ pauses_before_gets (effects (scrape_single_product
                                          (two_failures_then_page body0 body1 page)
                                          product index total show_debug)) =
             [300; 200; 400]%Z).
Proof.
  intros _.
  split; [apply scrape_single_product_pauses|].
  destruct (scrape_single_product_run w product index total show_debug)
    as (t & E & Hwaits & Hgets).
  rewrite E. simpl outcome. simpl effects.
  split; [done|]. split; [done|]. split.
  - intros attempt page Hlt Hbefore Hpage.
    unfold attempts_made, harvest_result.
    rewrite (first_success_at w attempt page); [done|done| |].
    + intros earlier He. by apply fetch_fails_page_of, Hbefore.
    + by rewrite Hpage.
  - intros body0 body1 page.
    rewrite scrape_single_product_pauses.
    destruct (scrape_single_product_run (two_failures_then_page body0 body1 page)
                product index total show_debug) as (t' & E' & _ & Hgets').
    rewrite E'. simpl outcome. simpl effects. rewrite Hgets'.
    by destruct body0, body1.
Qed.

Lemma retry_with_backoff_and_exception_pause_witness :
  pauses_before_gets
    (effects (scrape_single_product
                (two_failures_then_page (inl OtherException) (inl OtherException)
                   (Soup.mk (Some "Hand-beaded") None []))
                (Product.mk "A" "https://x/a" "Gown" "Acme") 1 1 false)) =
    [300; 200; 400]%Z
  /\ outcome (scrape_single_product
               (two_failures_then_page (inl OtherException) (inl OtherException)
                  (Soup.mk (Some "Hand-beaded") None []))
               (Product.mk "A" "https://x/a" "Gown" "Acme") 1 1 false) =
     inr (Some (scraped (Product.mk "A" "https://x/a" "Gown" "Acme")
                        (Soup.mk (Some "Hand-beaded") None []))).
Proof.
  pose proof (retry_with_backoff_and_exception_pause
                (two_failures_then_page (inl OtherException) (inl OtherException)
                   (Soup.mk (Some "Hand-beaded") None []))
                (Product.mk "A" "https://x/a" "Gown" "Acme") 1 1 false
                ltac:(lia)) as (Hpauses & _ & _ & Hfirst & _).
  split.
  - exact Hpauses.
  - apply (Hfirst 2 (Soup.mk (Some "Hand-beaded") None [])).
    + lia.
    + intros [|[|earlier]] H; [reflexivity|reflexivity|lia].
    + reflexivity.
Defined.


(** C5, as stated, fails: after a 200 whose body cannot be read on attempt
    0, the item is fetched again and ends with a record. *)
Lemma extraction_failure_is_retried :
  extraction_fails (unreadable_then_page (Soup.mk (Some "Hand-beaded") None []) 0) = true
  /\ count_gets (effects (scrape_single_product
                           (unreadable_then_page (Soup.mk (Some "Hand-beaded") None []))
                           (Product.mk "A" "https://x/a" "Gown" "Acme") 1 1 false)) = 2
  /\ outcome (scrape_single_product
               (unreadable_then_page (Soup.mk (Some "Hand-beaded") None []))
               (Product.mk "A" "https://x/a" "Gown" "Acme") 1 1 false) =
     inr (Some (scraped (Product.mk "A" "https://x/a" "Gown" "Acme")
                        (Soup.mk (Some "Hand-beaded") None []))).
Proof. repeat split; reflexivity. Qed.

(** C5, amended. When the fetch of an attempt succeeds and the extraction
    fails, the attempt counts as failed like any other: on attempts 0 and 1
    the item is fetched again, and the run returns what the later attempts
    give; on attempt 2, the last one, the run ends after three GETs with
    no record. *)
Theorem extraction_failure_retried_until_last
    w product index total show_debug attempt :
  attempt < 3 ->
  (forall earlier, earlier < attempt -> page_of (w earlier) = None) ->
  extraction_fails (w attempt) = true ->
  (attempt < 2 ->
     attempt + 2 <= count_gets (effects (scrape_single_product w product index total show_debug))
     /\ outcome (scrape_single_product w product index total show_debug) =
          inr (match first_success w (seq (S attempt) (2 - attempt)) with
               | Some (_, page) => Some (scraped product page)
               | None => None
               end))
  /\ (attempt = 2 ->
        count_gets (effects (scrape_single_product w product index total show_debug)) = 3
        /\ outcome (scrape_single_product w product index total show_debug) = inr None).
Proof.
  intros Hlt Hbefore Hfail.
  apply extraction_fails_page_of in Hfail.
  destruct (scrape_single_product_run w product index total show_debug)
    as (t & E & _ & Hgets).
  rewrite E. simpl outcome. simpl effects. rewrite Hgets.
  unfold attempts_made, harvest_result. simpl first_success.
  destruct attempt as [|[|[|?]]]; [| | |lia]; simpl.
  - rewrite Hfail. split; [intros _|lia].
    destruct (page_of (w 1)) as [page1|]; simpl; [split; [lia|done]|].
    destruct (page_of (w 2)) as [page2|]; simpl; split; (lia || done).
  - rewrite (Hbefore 0), Hfail by lia. split; [intros _|lia].
    destruct (page_of (w 2)) as [page2|]; simpl; split; (lia || done).
  - rewrite (Hbefore 0), (Hbefore 1), Hfail by lia. split; [lia|done].
Qed.

Lemma extraction_failure_retried_until_last_witness :
  2 <= count_gets (effects (scrape_single_product
                             (unreadable_then_page (Soup.mk (Some "Hand-beaded") None []))
                             (Product.mk "A" "https://x/a" "Gown" "Acme") 1 1 false))
  /\ outcome (scrape_single_product
               (unreadable_then_page (Soup.mk (Some "Hand-beaded") None []))
               (Product.mk "A" "https://x/a" "Gown" "Acme") 1 1 false) =
     inr (Some (scraped (Product.mk "A" "https://x/a" "Gown" "Acme")
                        (Soup.mk (Some "Hand-beaded") None []))).
Proof.
  apply (proj1
    (extraction_failure_retried_until_last
       (unreadable_then_page (Soup.mk (Some "Hand-beaded") None []))
       (Product.mk "A" "https://x/a" "Gown" "Acme") 1 1 false 0
       ltac:(lia) ltac:(intros earlier H; lia) eq_refl)).
  lia.
Defined.

(** ** [asyncio.gather]: the slots do not depend on the order of completion *)

Section gather.
Context {R : Type}.
Variable outcomes : list R.

Let step (slots : list (option R)) (i : nat) : list (option R) :=
  <[i := outcomes !! i]> slots.

Lemma step_length slots order :
  length (foldl step slots order) = length slots.
Proof.
  revert slots; induction order as [|i order IH]; intros slots; simpl; [done|].
  rewrite IH. apply length_insert.
Qed.

Lemma step_keeps slots order j :
  slots !! j = Some (outcomes !! j) ->
  foldl step slots order !! j = Some (outcomes !! j).
Proof.
  revert slots; induction order as [|i order IH]; intros slots Hj; simpl; [done|].
  apply IH. unfold step. rewrite list_lookup_insert.
  case_decide as Hi; [|done]. by destruct Hi as [-> _].
Qed.

Lemma step_fills slots order j :
  j ∈ order -> j < length slots ->
  foldl step slots order !! j = Some (outcomes !! j).
Proof.
  revert slots; induction order as [|i order IH]; intros slots Hin Hlt; simpl.
  - by apply elem_of_nil in Hin.
  - destruct (decide (i = j)) as [->|Hne].
    + apply step_keeps. unfold step. by rewrite list_lookup_insert_eq.
    + apply IH.
      * apply elem_of_cons in Hin as [->|Hin]; done.
      * unfold step. by rewrite length_insert.
Qed.

Lemma gather_slots_complete order :
  (forall j, j < length outcomes -> j ∈ order) ->
  gather_slots order outcomes = Some <$> outcomes.
Proof.
  intros Hall. apply list_eq. intros j. unfold gather_slots. fold step.
  destruct (decide (j < length outcomes)) as [Hlt|Hge].
  - rewrite step_fills; [|by apply Hall|by rewrite length_replicate].
    rewrite list_lookup_fmap.
    by destruct (lookup_lt_is_Some_2 outcomes j Hlt) as [r ->].
  - rewrite list_lookup_fmap.
    rewrite (proj2 (lookup_ge_None outcomes j)) by lia.
    apply lookup_ge_None. rewrite step_length, length_replicate. lia.
Qed.

Lemma gather_complete order :
  (forall j, j < length outcomes -> j ∈ order) ->
  gather order outcomes = Some outcomes.
Proof.
  intros Hall. unfold gather. rewrite gather_slots_complete by done.
  by apply mapM_fmap_Some.
Qed.
End gather.

Lemma permutation_covers order n :
  order ≡ₚ seq 0 n -> forall j, j < n -> j ∈ order.
Proof. intros Hp j Hj. rewrite Hp. apply elem_of_seq. lia. Qed.

(** ** The batch *)

Lemma omap_cons_eq {A B} (f : A -> option B) x l :
  omap f (x :: l) = match f x with Some y => y :: omap f l | None => omap f l end.
Proof. reflexivity. Qed.

Lemma omap_imap_pointwise {A B C D}
    (f : nat -> A -> C) (k : C -> D) (h : D -> option B) (g : nat -> A -> option B) l :
  (forall i x, h (k (f i x)) = g i x) ->
  omap h (k <$> imap f l) = omap id (imap g l).
Proof.
  revert f g; induction l as [|x l IH]; intros f g Hfg; [done|].
  rewrite !imap_cons, fmap_cons, !omap_cons_eq, Hfg.
  rewrite (IH (f ∘ S) (g ∘ S)) by (intros; apply Hfg). done.
Qed.

Lemma tasks_outcomes world products debug :
  omap kept (outcome <$> tasks world products debug) = harvested world products.
Proof.
  apply omap_imap_pointwise. intros i p.
  destruct (scrape_single_product_run (world i) p (S i) (length products)
              (debug && (S i <=? 3))) as (t & -> & _).
  simpl. by destruct (harvest_result _ _).
Qed.

(** When every task completes, the batch returns what the items give, in
    the order of the list. *)
Lemma scrape_products_batch_returns world order products debug :
  (forall j, j < length products -> j ∈ order) ->
  scrape_products_batch world order products debug = Some (harvested world products).
Proof.
  intros Hall. unfold scrape_products_batch.
  rewrite gather_complete.
  - by rewrite tasks_outcomes.
  - intros j Hj. apply Hall. revert Hj.
    unfold tasks. by rewrite length_fmap, length_imap.
Qed.

(** The records of the corpus come from a sub-list of the items, each
    scraped from a page of its item. *)
Lemma omap_imap_survivors {A B} (P : A -> B -> Prop) (g : nat -> A -> option B) l :
  (forall i x y, g i x = Some y -> P x y) ->
  exists survivors,
    survivors `sublist_of` l /\ Forall2 P survivors (omap id (imap g l)).
Proof.
  revert g; induction l as [|x l IH]; intros g Hg.
  - exists []. split; constructor.
  - rewrite imap_cons, omap_cons_eq.
    destruct (IH (g ∘ S)) as (survivors & Hsub & Hall); [intros; by eapply Hg|].
    destruct (g 0 x) as [y|] eqn:E; simpl.
    + exists (x :: survivors). split; [by constructor|]. constructor; [by eapply Hg|done].
    + exists survivors. split; [by constructor|done].
Qed.

Lemma harvest_result_scraped w p r :
  harvest_result w p = Some r -> exists page, r = scraped p page.
Proof.
  unfold harvest_result. destruct (first_success _ _) as [[a page]|]; [|done].
  intros [= <-]. by exists page.
Qed.

Lemma harvested_survivors world products :
  exists survivors,
    survivors `sublist_of` products
    /\ Forall2 (fun p r => exists page, r = scraped p page)
               survivors (harvested world products).
Proof.
  apply omap_imap_survivors. intros i p r. apply harvest_result_scraped.
Qed.

Lemma harvested_ids world products :
  Scraped.mp_code <$> harvested world products
  `sublist_of` Product.mp_code <$> products.
Proof.
  destruct (harvested_survivors world products) as (survivors & Hsub & Hall).
  assert (E : Scraped.mp_code <$> harvested world products = Product.mp_code <$> survivors).
  { clear Hsub. induction Hall as [|p r ps rs [page ->] _ IH]; [done|].
    rewrite !fmap_cons, IH. done. }
  rewrite E. by apply fmap_sublist.
Qed.

Lemma elem_of_harvested world products r :
  r ∈ harvested world products <->
  exists i p, products !! i = Some p /\ harvest_result (world i) p = Some r.
Proof.
  unfold harvested. rewrite list_elem_of_omap. split.
  - intros (o & Hin & Ho). simpl in Ho. subst o.
    apply list_elem_of_lookup in Hin as [i Hi].
    rewrite list_lookup_imap in Hi.
    destruct (products !! i) as [p|] eqn:E; [|done].
    exists i, p. split; [done|]. by injection Hi.
  - intros (i & p & Hi & Hr). exists (Some r). split; [|done].
    apply list_elem_of_lookup. exists i. by rewrite list_lookup_imap, Hi, <- Hr.
Qed.

Lemma harvested_length world products :
  length (harvested world products) <= length products.
Proof.
  destruct (harvested_survivors world products) as (survivors & Hsub & Hall).
  rewrite <- (Forall2_length _ _ _ Hall). by apply sublist_length.
Qed.

(** C2. For every run of the batch over items with pairwise distinct ids
    (every way the GETs answer, every order of completion), the batch
    returns a corpus that is no longer than the list of items, in which
    every record carries the id of one of the items, and in which no id
    occurs twice. *)
Theorem harvest_corpus_bounds world order products debug :
  NoDup (Product.mp_code <$> products) ->
  order ≡ₚ seq 0 (length products) ->
  exists corpus,
    scrape_products_batch world order products debug = Some corpus
    /\ length corpus <= length products
    /\ (forall r, r ∈ corpus ->
          exists p, p ∈ products /\ Scraped.mp_code r = Product.mp_code p)
    /\ NoDup (Scraped.mp_code <$> corpus).
Proof.
  intros Hnodup Hperm. exists (harvested world products).
  split; [|split; [|split]].
  - apply scrape_products_batch_returns. by apply permutation_covers.
  - apply harvested_length.
  - intros r (i & p & Hi & Hr)%elem_of_harvested. exists p.
    split; [by eapply list_elem_of_lookup_2|].
    by destruct (harvest_result_scraped _ _ _ Hr) as [page ->].
  - eapply sublist_NoDup; [exact Hnodup|]. apply harvested_ids.
Qed.

Lemma harvest_corpus_bounds_witness :
  exists corpus,
    scrape_products_batch (second_item_times_out (Soup.mk (Some "Hand-beaded") None []))
      [1; 0]
      [Product.mk "A" "https://x/a" "Gown" "Acme";
       Product.mk "B" "https://x/b" "Dress" "Acme"] false = Some corpus
    /\ length corpus <= 2
    /\ (forall r, r ∈ corpus ->
          exists p, p ∈ [Product.mk "A" "https://x/a" "Gown" "Acme";
                         Product.mk "B" "https://x/b" "Dress" "Acme"]
                    /\ Scraped.mp_code r = Product.mp_code p)
    /\ NoDup (Scraped.mp_code <$> corpus).
Proof.
  apply (harvest_corpus_bounds
           (second_item_times_out (Soup.mk (Some "Hand-beaded") None []))
           [1; 0]
           [Product.mk "A" "https://x/a" "Gown" "Acme";
            Product.mk "B" "https://x/b" "Dress" "Acme"] false).
  - apply (bool_decide_unpack _). vm_compute. reflexivity.
  - simpl. apply perm_swap.
Defined.

(** C9. Whatever the order in which the tasks complete, the batch returns
    the same corpus, and its records follow the order of the list of
    items: they are scraped, one each and in order, from a sub-list of the
    items. *)
Theorem corpus_keeps_listing_order world order products debug :
  order ≡ₚ seq 0 (length products) ->
  exists corpus survivors,
    scrape_products_batch world order products debug = Some corpus
    /\ corpus = harvested world products
    /\ survivors `sublist_of` products
    /\ Forall2 (fun p r => exists page, r = scraped p page) survivors corpus
    /\ Scraped.mp_code <$> corpus `sublist_of` Product.mp_code <$> products.
Proof.
  intros Hperm.
  destruct (harvested_survivors world products) as (survivors & Hsub & Hall).
  exists (harvested world products), survivors.
  split; [|split; [done|split; [done|split; [done|]]]].
  - apply scrape_products_batch_returns. by apply permutation_covers.
  - apply harvested_ids.
Qed.

Lemma corpus_keeps_listing_order_witness :
  exists corpus survivors,
    scrape_products_batch (fun _ _ => GetResponds 200 (inr (Soup.mk (Some "Hand-beaded") None [])))
      [1; 0]
      [Product.mk "A" "https://x/a" "Gown" "Acme";
       Product.mk "B" "https://x/b" "Dress" "Acme"] false = Some corpus
    /\ corpus = harvested (fun _ _ => GetResponds 200 (inr (Soup.mk (Some "Hand-beaded") None [])))
                  [Product.mk "A" "https://x/a" "Gown" "Acme";
                   Product.mk "B" "https://x/b" "Dress" "Acme"]
    /\ survivors `sublist_of` [Product.mk "A" "https://x/a" "Gown" "Acme";
                               Product.mk "B" "https://x/b" "Dress" "Acme"]
    /\ Forall2 (fun p r => exists page, r = scraped p page) survivors corpus
    /\ Scraped.mp_code <$> corpus
       `sublist_of` Product.mp_code <$> [Product.mk "A" "https://x/a" "Gown" "Acme";
                                         Product.mk "B" "https://x/b" "Dress" "Acme"].
Proof.
  apply (corpus_keeps_listing_order
           (fun _ _ => GetResponds 200 (inr (Soup.mk (Some "Hand-beaded") None [])))
           [1; 0]
           [Product.mk "A" "https://x/a" "Gown" "Acme";
            Product.mk "B" "https://x/b" "Dress" "Acme"] false).
  simpl. apply perm_swap.
Defined.

(** C3, as stated, fails: paging keeps two records of the listing that
    carry the same product id as two items; when all three fetches of the
    first one fail and the second one is harvested, the id of the failed
    item is in the corpus and in the match set. *)
Lemma failed_item_id_still_matches :
  outcome (discover_async duplicate_id_catalog "q") =
    inr [Product.mk "B" "https://luxury.tatacliq.com/b1" "Gown" "Acme";
         Product.mk "B" "https://luxury.tatacliq.com/b2" "Gown" "Acme"]
  /\ (forall attempt,
        attempt < 3 ->
        fetch_fails (first_item_times_out
                       (Soup.mk (Some "All-over sequin work") None []) 0 attempt) = true)
  /\ scrape_all_products_async duplicate_id_catalog
       (first_item_times_out (Soup.mk (Some "All-over sequin work") None []))
       [0; 1] "q" false =
     Some [scraped (Product.mk "B" "https://luxury.tatacliq.com/b2" "Gown" "Acme")
                   (Soup.mk (Some "All-over sequin work") None [])]
  /\ filter_by_keywords
       [scraped (Product.mk "B" "https://luxury.tatacliq.com/b2" "Gown" "Acme")
                (Soup.mk (Some "All-over sequin work") None [])]
       ["sequin"] = ["B"].
Proof. repeat split; reflexivity. Qed.

(** C3, amended. An item all three of whose fetches fail (the GET raises
    or answers a status other than 200) ends with [None], not with a
    record, and the batch still returns its corpus. Every record of that
    corpus, and every id [filter_by_keywords] returns for any list of
    keywords, comes from another item of the list; so, when no other item
    of the list shares its id, the failed item's id is in no record and in
    no match set. *)
Theorem failed_item_is_dropped world order products debug i p :
  order ≡ₚ seq 0 (length products) ->
  products !! i = Some p ->
  (forall attempt, attempt < 3 -> fetch_fails (world i attempt) = true) ->
  outcome (scrape_single_product (world i) p (S i) (length products)
                                 (debug && (S i <=? 3))) = inr None
  /\ exists corpus,
       scrape_products_batch world order products debug = Some corpus
       /\ (forall r, r ∈ corpus ->
             exists j q page, j <> i /\ products !! j = Some q /\ r = scraped q page)
       /\ (forall kws id, id ∈ filter_by_keywords corpus kws ->
             exists j q, j <> i /\ products !! j = Some q /\ id = Product.mp_code q)
       /\ ((forall j q, j <> i -> products !! j = Some q ->
              Product.mp_code q <> Product.mp_code p) ->
           (forall r, r ∈ corpus -> Scraped.mp_code r <> Product.mp_code p)
           /\ (forall kws, Product.mp_code p ∉ filter_by_keywords corpus kws)).
Proof.
  intros Hperm Hi Hfail.
  assert (Hnone : harvest_result (world i) p = None).
  { unfold harvest_result. rewrite first_success_none; [done|].
    intros attempt Ha. by apply fetch_fails_page_of, Hfail. }
  assert (Hfrom : forall r, r ∈ harvested world products ->
            exists j q page, j <> i /\ products !! j = Some q /\ r = scraped q page).
  { intros r (j & q & Hj & Hr)%elem_of_harvested.
    destruct (harvest_result_scraped _ _ _ Hr) as [page ->].
    exists j, q, page. split; [|done].
    intros ->. rewrite Hi in Hj. injection Hj as <-. by rewrite Hnone in Hr. }
  assert (Hids : forall kws id, id ∈ filter_by_keywords (harvested world products) kws ->
            exists j q, j <> i /\ products !! j = Some q /\ id = Product.mp_code q).
  { intros kws id (r & Hin & _ & <-)%elem_of_filter_by_keywords.
    destruct (Hfrom r Hin) as (j & q & page & Hne & Hj & ->). by exists j, q. }
  split.
  - destruct (scrape_single_product_run (world i) p (S i) (length products)
                (debug && (S i <=? 3))) as (t & -> & _).
    simpl. by rewrite Hnone.
  - exists (harvested world products). split; [|split; [done|split; [done|]]].
    + apply scrape_products_batch_returns. by apply permutation_covers.
    + intros Hdistinct. split.
      * intros r Hin Heq. destruct (Hfrom r Hin) as (j & q & page & Hne & Hj & ->).
        by apply (Hdistinct j q).
      * intros kws Hin. destruct (Hids kws _ Hin) as (j & q & Hne & Hj & Heq).
        by apply (Hdistinct j q).
Qed.

Lemma failed_item_is_dropped_witness :
  outcome (scrape_single_product
             (second_item_times_out (Soup.mk (Some "Hand-beaded") None []) 1)
             (Product.mk "B" "https://x/b" "Dress" "Acme") 2 2 false) = inr None
  /\ exists corpus,
       scrape_products_batch (second_item_times_out (Soup.mk (Some "Hand-beaded") None []))
         [1; 0]
         [Product.mk "A" "https://x/a" "Gown" "Acme";
          Product.mk "B" "https://x/b" "Dress" "Acme"] false = Some corpus
       /\ (forall r, r ∈ corpus ->
             exists j q page,
               j <> 1
               /\ [Product.mk "A" "https://x/a" "Gown" "Acme";
                   Product.mk "B" "https://x/b" "Dress" "Acme"] !! j = Some q
               /\ r = scraped q page)
       /\ (forall kws id, id ∈ filter_by_keywords corpus kws ->
             exists j q,
               j <> 1
               /\ [Product.mk "A" "https://x/a" "Gown" "Acme";
                   Product.mk "B" "https://x/b" "Dress" "Acme"] !! j = Some q
               /\ id = Product.mp_code q)
       /\ ((forall j q, j <> 1 ->
              [Product.mk "A" "https://x/a" "Gown" "Acme";
               Product.mk "B" "https://x/b" "Dress" "Acme"] !! j = Some q ->
              Product.mp_code q <> Product.mp_code (Product.mk "B" "https://x/b" "Dress" "Acme")) ->
           (forall r, r ∈ corpus ->
              Scraped.mp_code r <> Product.mp_code (Product.mk "B" "https://x/b" "Dress" "Acme"))
           /\ (forall kws,
                 Product.mp_code (Product.mk "B" "https://x/b" "Dress" "Acme")
                 ∉ filter_by_keywords corpus kws)).
Proof.
  apply (failed_item_is_dropped
           (second_item_times_out (Soup.mk (Some "Hand-beaded") None []))
           [1; 0]
           [Product.mk "A" "https://x/a" "Gown" "Acme";
            Product.mk "B" "https://x/b" "Dress" "Acme"] false
           1 (Product.mk "B" "https://x/b" "Dress" "Acme")).
  - simpl. apply perm_swap.
  - reflexivity.
  - intros attempt _. reflexivity.
Defined.

(** Every item of the list gets its task, all handed to [gather] at once. *)
Lemma every_item_gets_a_task world products debug :
  length (tasks world products debug) = length products.
Proof. unfold tasks. apply length_imap. Qed.

(** ** Catalog paging *)

Lemma Paging_bind_run {A B} (m : Paging A) (k : A -> Paging B) all_products :
  (m ≫= k) all_products =
  match outcome (fst (m all_products)) with
  | inl e => ((inl e, effects (fst (m all_products))), snd (m all_products))
  | inr a =>
      ((outcome (fst (k a (snd (m all_products)))),
        effects (fst (m all_products)) ++ effects (fst (k a (snd (m all_products))))),
       snd (k a (snd (m all_products))))
  end.
Proof.
  unfold mbind, Paging_bind.
  destruct (m all_products) as [[[e|a] t] l]; simpl; [done|].
  by destruct (k a l) as [[r t'] l'].
Qed.

Lemma omap_cons_if {A B} (f : A -> option B) (b : bool) x l :
  omap f (if b then [] else x :: l) =
  if b then [] else match f x with Some y => y :: omap f l | None => omap f l end.
Proof. by destruct b. Qed.

(** The loop over the records of a page: it raises at the first record
    that raises, and the list then holds, after what it held, the items
    of the records before that one. *)
Lemma for_products_run products all_products :
  for_products products all_products =
  ((if existsb record_raises products then inl OtherException else inr tt, []),
   all_products ++ omap listed (processed products)).
Proof.
  revert all_products. induction products as [|r products IH]; intros all_products.
  - simpl. by rewrite app_nil_r.
  - cbn [for_products existsb processed]. rewrite Paging_bind_run.
    rewrite omap_cons_if. unfold record_body, record_raises, listed.
    destruct (truthy (Listing.productId r)); cbn [andb orb].
    + destruct (Listing.webURL r) as [web_url|]; cbn [orb].
      * unfold all_products_append. cbn [fst snd outcome effects].
        rewrite IH. cbn [fst snd outcome effects app]. rewrite <- app_assoc.
        by destruct (startswith web_url "http").
      * unfold lift, raise. cbn [fst snd outcome effects].
        by rewrite app_nil_r.
    + unfold mret, Paging_ret. cbn [fst snd outcome effects].
      rewrite IH. by cbn [fst snd outcome effects app].
Qed.

Section paging_runs.
Variable catalog : nat -> page_outcome.
Variable search_text : string.
Variable pause : Z.

(** One pass through the loop body: it does not raise; it makes one GET,
    for the URL of the page; the items of the page are appended; the loop
    goes on exactly when the page does not stop it, after the pause. *)
Lemma page_body_run page all_products :
  exists t,
    page_body catalog search_text pause page all_products =
    ((inr (if page_stops (catalog page) then Break else NextPage), t),
     all_products ++ page_items (catalog page))
    /\ requested_urls t = [build_api_url search_text page]
    /\ total_sleep t = if page_stops (catalog page) then 0%Z else pause.
Proof.
  unfold page_body, requests_get.
  generalize (build_api_url search_text page) as url. intros url.
  destruct (catalog page) as [|status [products|]];
    cbv beta iota zeta delta
      [lift try_paging response_json print sleep emit raise
       mbind Paging_bind IO_bind mret Paging_ret IO_ret fst snd
       all_products_len page_stops page_items].
  - eexists. rewrite (app_nil_r all_products). split; [reflexivity|]. split; reflexivity.
  - destruct (status =? 200)%Z; cbn [negb orb].
    + destruct products as [|r products].
      * cbn [nonempty negb processed omap list_omap length]. eexists.
        rewrite (app_nil_r all_products). split; [reflexivity|]. split; reflexivity.
      * cbn [nonempty negb]. rewrite for_products_run.
        generalize (omap listed (processed (r :: products))). intros items.
        generalize (length (r :: products)). intros size.
        destruct (existsb record_raises (r :: products)); cbn [orb].
        -- eexists. split; [reflexivity|]. split; reflexivity.
        -- destruct (size <? 24); eexists; (split; [reflexivity|]); split;
             try reflexivity; simpl; lia.
    + eexists. rewrite (app_nil_r all_products). split; [reflexivity|]. split; reflexivity.
  - destruct (status =? 200)%Z; eexists; rewrite (app_nil_r all_products);
      (split; [reflexivity|]); split; reflexivity.
Qed.

Lemma requested_urls_app t1 t2 :
  requested_urls (t1 ++ t2) = requested_urls t1 ++ requested_urls t2.
Proof.
  induction t1 as [|ev t1 IH]; [done|].
  destruct ev; simpl; by rewrite IH.
Qed.

Lemma count_gets_requested_urls t : count_gets t = length (requested_urls t).
Proof.
  unfold count_gets. induction t as [|ev t IH]; [done|].
  destruct ev; simpl; by rewrite ?IH.
Qed.

Lemma total_sleep_app t1 t2 : (total_sleep (t1 ++ t2) = total_sleep t1 + total_sleep t2)%Z.
Proof.
  induction t1 as [|ev t1 IH]; [done|]. destruct ev; simpl; rewrite IH; lia.
Qed.

(** The loop from [page] on, with [remaining] pages below the ceiling: it
    does not raise; it requests the pages [page] to [page + n - 1] and no
    other, where every page but the last requested lets the loop go on,
    and where the loop ends short of the ceiling only on a page that stops
    it; the items of the requested pages are appended in order; it pauses
    after each page that lets it go on. *)
Lemma paging_loop_run remaining page all_products :
  exists n t,
    paging_loop catalog search_text pause remaining page all_products =
    ((inr tt, t),
     all_products ++ flat_map (fun page => page_items (catalog page)) (seq page n))
    /\ n <= remaining
    /\ (forall k, S k < n -> page_stops (catalog (page + k)) = false)
    /\ (n < remaining -> 0 < n /\ page_stops (catalog (page + (n - 1))) = true)
    /\ requested_urls t = build_api_url search_text <$> seq page n
    /\ total_sleep t = (pause * Z.of_nat (full_pages catalog (seq page n)))%Z.
Proof.
  revert page all_products.
  induction remaining as [|remaining IH]; intros page all_products.
  - exists 0, []. simpl. rewrite app_nil_r. unfold full_pages. simpl.
    repeat split; (lia || done).
  - destruct (page_body_run page all_products) as (t & E & Hurls & Hsleep).
    cbn [paging_loop]. rewrite Paging_bind_run, E. cbn [fst snd outcome effects].
    unfold full_pages in *.
    destruct (page_stops (catalog page)) eqn:Hstop.
    + exists 1, (t ++ []). cbn [mret Paging_ret fst snd outcome effects].
      rewrite !app_nil_r. simpl. rewrite app_nil_r, Hstop, Hurls, Hsleep. simpl.
      repeat split; try (lia || done).
      by rewrite Nat.add_0_r.
    + destruct (IH (S page) (all_products ++ page_items (catalog page)))
        as (n & t' & E' & Hle & Hgo & Hend & Hreq & Hpause).
      exists (S n), (t ++ t'). rewrite E'. cbn [fst snd outcome effects].
      rewrite requested_urls_app, total_sleep_app, Hurls, Hreq, Hsleep, Hpause.
      split; [simpl; by rewrite <- app_assoc|].
      split; [lia|]. split; [|split; [|split]].
      * intros [|k] Hk; [by rewrite Nat.add_0_r|].
        replace (page + S k) with (S page + k) by lia. apply Hgo. lia.
      * intros Hn. split; [lia|].
        destruct Hend as [Hpos Hlast]; [lia|].
        replace (page + (S n - 1)) with (S page + (n - 1)) by lia. done.
      * done.
      * simpl. rewrite Hstop. simpl length. lia.
Qed.

(** The whole of paging. *)
Lemma discover_run ceiling :
  exists n,
    n <= ceiling
    /\ (forall page, S page < n -> page_stops (catalog page) = false)
    /\ (n < ceiling -> 0 < n /\ page_stops (catalog (n - 1)) = true)
    /\ requested_urls (effects (discover catalog search_text pause ceiling)) =
         build_api_url search_text <$> seq 0 n
    /\ outcome (discover catalog search_text pause ceiling) =
         inr (flat_map (fun page => page_items (catalog page)) (seq 0 n))
    /\ total_sleep (effects (discover catalog search_text pause ceiling)) =
         (pause * Z.of_nat (full_pages catalog (seq 0 n)))%Z.
Proof.
  destruct (paging_loop_run ceiling 0 []) as (n & t & E & Hle & Hgo & Hend & Hreq & Hpause).
  exists n. unfold discover. rewrite E. cbn [outcome effects fst snd app].
  repeat split; try done. by apply Hend. by apply Hend.
Qed.
End paging_runs.

(** What makes a page stop the loop, and what lets it go on. *)
Lemma record_raises_spec r :
  record_raises r = true <->
  truthy (Listing.productId r) = true /\ Listing.webURL r = None.
Proof.
  unfold record_raises. destruct (truthy (Listing.productId r)), (Listing.webURL r);
    simpl; split; (done || by intros []).
Qed.

Lemma page_stops_spec o :
  page_stops o = true <->
  o = RequestRaises
  \/ (exists status json, o = Responded status json /\ status <> 200%Z)
  \/ o = Responded 200 None
  \/ (exists products,
        o = Responded 200 (Some products)
        /\ (length products < 24
            \/ exists r, r ∈ products
                         /\ truthy (Listing.productId r) = true
                         /\ Listing.webURL r = None)).
Proof.
  destruct o as [|status [products|]]; simpl.
  - split; [by left|done].
  - destruct (Z.eqb_spec status 200) as [->|Hne]; simpl.
    + rewrite orb_true_iff, existsb_exists, Nat.ltb_lt. split.
      * intros [(r & Hin & Hr)|Hshort]; right; right; right; exists products;
          (split; [done|]); [right|by left].
        exists r. split; [by apply list_elem_of_In|]. by apply record_raises_spec.
      * intros [?|[(status & json & [= <- _] & Hne)|[?|(l & [= <-] & H)]]]; try done.
        destruct H as [?|(r & Hin & Hr)]; [by right|left].
        exists r. split; [by apply list_elem_of_In|]. by apply record_raises_spec.
    + split; [|done]. intros _. right; left. by exists status, (Some products).
  - split; [|done]. intros _.
    destruct (Z.eqb_spec status 200) as [->|Hne]; [right; right; by left|].
    right; left. by exists status, None.
Qed.

Lemma page_goes_on_spec o :
  page_stops o = false <->
  exists products,
    o = Responded 200 (Some products)
    /\ 24 <= length products
    /\ Forall (fun r => truthy (Listing.productId r) = true -> is_Some (Listing.webURL r))
              products.
Proof.
  destruct o as [|status [products|]]; simpl.
  - split; [done|]. by intros (? & ? & _).
  - destruct (Z.eqb_spec status 200) as [->|Hne]; simpl.
    + rewrite orb_false_iff, Nat.ltb_ge. split.
      * intros [Hnone Hfull]. exists products. split; [done|]. split; [done|].
        apply Forall_forall. intros r Hin Hid.
        destruct (Listing.webURL r) as [u|] eqn:Hu; [by exists u|].
        assert (Hr : existsb record_raises products = true).
        { apply existsb_exists. exists r. split; [by apply list_elem_of_In|].
          by apply record_raises_spec. }
        congruence.
      * intros (l & [= <-] & Hfull & Hall). split; [|done].
        apply not_true_iff_false. intros (r & Hin & Hr)%existsb_exists.
        apply record_raises_spec in Hr as [Hid Hu].
        rewrite Forall_forall in Hall.
        destruct (Hall r (proj2 (list_elem_of_In _ _) Hin) Hid) as [u Hu'].
        congruence.
    + split; [done|]. intros (l & [= ?] & _). done.
  - split; [done|]. by intros (? & ? & _).
Qed.

(** A page none of whose records raises has all its records processed. *)
Lemma processed_all products :
  Forall (fun r => truthy (Listing.productId r) = true -> is_Some (Listing.webURL r))
         products ->
  processed products = products.
Proof.
  induction 1 as [|r products Hr _ IH]; [done|].
  cbn [processed]. rewrite IH.
  destruct (record_raises r) eqn:E; [|done].
  apply record_raises_spec in E as [Hid Hu].
  destruct (Hr Hid) as [u Hu']. congruence.
Qed.

Lemma listed_all products :
  Forall (fun r => truthy (Listing.productId r) = true /\ is_Some (Listing.webURL r))
         products ->
  length (omap listed (processed products)) = length products.
Proof.
  intros Hall. rewrite processed_all.
  - induction Hall as [|r products [Hid [u Hu]] _ IH]; [done|].
    rewrite omap_cons_eq. unfold listed at 1. rewrite Hid, Hu. simpl. by rewrite IH.
  - eapply Forall_impl; [exact Hall|]. by intros r [_ ?] _.
Qed.

Lemma length_flat_map_const {A B} (f : A -> list B) k l :
  (forall x, length (f x) = k) -> length (flat_map f l) = length l * k.
Proof.
  intros Hf. induction l as [|x l IH]; [done|].
  simpl. rewrite length_app, Hf, IH. lia.
Qed.

(** C6, as stated, fails, in three ways. On a catalog all of whose pages
    are full, the loop of [scrape_all_products_async] ends after 500
    requests with 500 * 24 items, though no page gave a reason to stop. On
    a catalog whose first page answers 200 with 24 records, the second of
    which has a product id and a null [webURL], the loop ends after that
    one request, with the one item appended before the record. And on
    pages of 24, 24 and 10 records of which the last 10 have no product
    id, the three requests collect 48 items, not 58. *)
Lemma paging_stops_without_signal :
  (~ stops_only_on_page_signal full_catalog (discover_async full_catalog "q")
   /\ (forall page, signals_stop (full_catalog page) = false)
   /\ count_gets (effects (discover_async full_catalog "q")) = 500
   /\ exists items,
        outcome (discover_async full_catalog "q") = inr items
        /\ length items = 500 * 24)
  /\ (~ stops_only_on_page_signal null_url_catalog (discover_async null_url_catalog "q")
      /\ (forall page, signals_stop (null_url_catalog page) = false)
      /\ count_gets (effects (discover_async null_url_catalog "q")) = 1
      /\ outcome (discover_async null_url_catalog "q") =
           inr [Product.mk "MP1" "https://luxury.tatacliq.com/p" "Gown" "Acme"])
  /\ (page_sizes missing_id_catalog = [24; 24; 10]
      /\ count_gets (effects (discover_async missing_id_catalog "q")) = 3
      /\ exists items,
           outcome (discover_async missing_id_catalog "q") = inr items
           /\ length items = 48).
Proof.
  split; [|split].
  - destruct (discover_run full_catalog "q" 300 500)
      as (n & Hle & _ & Hend & Hreq & Hout & _).
    fold (discover_async full_catalog "q") in Hreq, Hout.
    assert (n = 500) as ->.
    { destruct (decide (n < 500)) as [Hlt|Hge]; [|lia].
      destruct (Hend Hlt) as [_ Hstop]. discriminate Hstop. }
    split; [|split; [|split]].
    + intros (last & Hstop & _). done.
    + done.
    + by rewrite count_gets_requested_urls, Hreq, length_fmap, length_seq.
    + eexists. split; [exact Hout|].
      rewrite (length_flat_map_const _ 24); [by rewrite length_seq|done].
  - split; [|split; [|split]].
    + intros (last & Hstop & _). by destruct last.
    + by intros [|page].
    + vm_compute. reflexivity.
    + vm_compute. reflexivity.
  - split; [|split].
    + reflexivity.
    + vm_compute. reflexivity.
    + exists (replicate 48
                (Product.mk "MP1" "https://luxury.tatacliq.com/p" "Gown" "Acme")).
      split; vm_compute; reflexivity.
Qed.

(** C6, amended. Paging starts at page 0 and goes up by 1. It stops when a
    page request fails, when it answers a status other than 200, when the
    answer cannot be read as JSON, when a page holds no record or fewer
    than 24 records, when a record of the page has a product id and a
    [webURL] that is not a string (processing it raises), or when the page
    ceiling is reached (500 pages in [scrape_all_products_async] and
    [scrape_all_products], 100 in [scrape_and_filter_by_keywords]). The
    items of all requested pages are kept: for each page that answered 200,
    those of its records with a product id, up to the first record that
    raises. For pages of 24, 24 and 10 records that all carry a product id
    and a [webURL] that is a string, there are exactly 3 page requests and
    58 items. *)
Theorem paging_stops_on_signal_or_ceiling catalog search_text pause ceiling :
  (exists n,
     n <= ceiling
     /\ (forall page, S page < n -> page_stops (catalog page) = false)
     /\ (n < ceiling -> 0 < n /\ page_stops (catalog (n - 1)) = true)
     /\ requested_urls (effects (discover catalog search_text pause ceiling)) =
          build_api_url search_text <$> seq 0 n
     /\ outcome (discover catalog search_text pause ceiling) =
          inr (flat_map (fun page => page_items (catalog page)) (seq 0 n)))
  /\ (forall page,
        page_stops (catalog page) = true <->
        catalog page = RequestRaises
        \/ (exists status json, catalog page = Responded status json /\ status <> 200%Z)
        \/ catalog page = Responded 200 None
        \/ (exists products,
              catalog page = Responded 200 (Some products)
              /\ (length products < 24
                  \/ exists r, r ∈ products
                               /\ truthy (Listing.productId r) = true
                               /\ Listing.webURL r = None)))
  /\ (forall page products,
        catalog page = Responded 200 (Some products) ->
        page_items (catalog page) = omap listed (processed products)
        /\ (Forall (fun r => truthy (Listing.productId r) = true ->
                             is_Some (Listing.webURL r)) products ->
            processed products = products)
        /\ (forall before r after,
              products = before ++ r :: after ->
              Forall (fun r => truthy (Listing.productId r) = true ->
                               is_Some (Listing.webURL r)) before ->
              truthy (Listing.productId r) = true ->
              Listing.webURL r = None ->
              processed products = before))
  /\ (forall l0 l1 l2,
        3 <= ceiling ->
        catalog 0 = Responded 200 (Some l0) ->
        catalog 1 = Responded 200 (Some l1) ->
        catalog 2 = Responded 200 (Some l2) ->
        length l0 = 24 -> length l1 = 24 -> length l2 = 10 ->
        Forall (fun r => truthy (Listing.productId r) = true
                         /\ is_Some (Listing.webURL r)) (l0 ++ l1 ++ l2) ->
        count_gets (effects (discover catalog search_text pause ceiling)) = 3
        /\ exists items,
             outcome (discover catalog search_text pause ceiling) = inr items
             /\ length items = 58).
Proof.
  destruct (discover_run catalog search_text pause ceiling)
    as (n & Hle & Hgo & Hend & Hreq & Hout & _).
  split; [|split; [|split]].
  - exists n. by repeat split; try apply Hend.
  - intros page. apply page_stops_spec.
  - intros page products E. rewrite E. split; [done|]. split; [apply processed_all|].
    intros before r after -> Hbefore Hid Hu. clear E.
    induction Hbefore as [|r' before Hr' _ IH]; cbn [app processed].
    + by rewrite (proj2 (record_raises_spec r)).
    + rewrite IH. destruct (record_raises r') eqn:Hraises; [|done].
      apply record_raises_spec in Hraises as [Hid' Hu'].
      destruct (Hr' Hid') as [u Hu'']. congruence.
  - intros l0 l1 l2 Hceil E0 E1 E2 H0 H1 H2 Hids.
    apply Forall_app in Hids as [Hids0 Hids]. apply Forall_app in Hids as [Hids1 Hids2].
    assert (Hfine : forall l,
              Forall (fun r => truthy (Listing.productId r) = true
                               /\ is_Some (Listing.webURL r)) l ->
              Forall (fun r => truthy (Listing.productId r) = true ->
                               is_Some (Listing.webURL r)) l).
    { intros l Hl. eapply Forall_impl; [exact Hl|]. by intros r [_ ?] _. }
    assert (S0 : page_stops (catalog 0) = false).
    { apply page_goes_on_spec. exists l0. split; [done|]. split; [lia|by apply Hfine]. }
    assert (S1 : page_stops (catalog 1) = false).
    { apply page_goes_on_spec. exists l1. split; [done|]. split; [lia|by apply Hfine]. }
    assert (S2 : page_stops (catalog 2) = true).
    { apply page_stops_spec. right; right; right. exists l2. split; [done|]. left. lia. }
    assert (n = 3) as ->.
    { destruct (decide (n < 3)) as [Hlt|Hge].
      - destruct Hend as [Hpos Hlast]; [lia|]. simpl in Hlast.
        destruct n as [|[|[|?]]]; simpl in Hlast; [lia|congruence|congruence|lia].
      - destruct (decide (n = 3)) as [|Hne]; [done|].
        specialize (Hgo 2 ltac:(lia)). simpl in Hgo. congruence. }
    rewrite count_gets_requested_urls, Hreq, Hout.
    split; [done|]. eexists. split; [reflexivity|].
    simpl. rewrite E0, E1, E2. simpl. rewrite app_nil_r, !length_app.
    rewrite !listed_all by done. lia.
Qed.

Lemma paging_stops_on_signal_or_ceiling_witness :
  count_gets (effects (discover three_page_catalog "q" 300 500)) = 3
  /\ exists items,
       outcome (discover three_page_catalog "q" 300 500) = inr items
       /\ length items = 58.
Proof.
  apply (proj2 (proj2 (proj2
           (paging_stops_on_signal_or_ceiling three_page_catalog "q" 300 500)))
           (replicate 24 (Listing.mk "MP1" (Some "/p") "Gown" "Acme"))
           (replicate 24 (Listing.mk "MP1" (Some "/p") "Gown" "Acme"))
           (replicate 10 (Listing.mk "MP2" (Some "https://x/q") "Dress" "Acme"))).
  - lia.
  - reflexivity.
  - reflexivity.
  - reflexivity.
  - reflexivity.
  - reflexivity.
  - reflexivity.
  - apply (bool_decide_unpack _). vm_compute. reflexivity.
Defined.

(** * Further properties of the code *)

(** ** [filter_by_keywords] as an operation on corpora and keyword lists *)

(** X1. Filtering a corpus made of two parts gives the ids of the first
    part followed by the ids of the second: the filter can be run part by
    part. *)
Theorem filter_by_keywords_app corpus1 corpus2 kws :
  filter_by_keywords (corpus1 ++ corpus2) kws =
  filter_by_keywords corpus1 kws ++ filter_by_keywords corpus2 kws.
Proof. by rewrite !filter_by_keywords_eq, List.filter_app, fmap_app. Qed.

Lemma any_keyword_in_ext kl1 kl2 r :
  (forall k, k ∈ kl1 -> k ∈ kl2) ->
  any_keyword_in kl1 r = true -> any_keyword_in kl2 r = true.
Proof.
  unfold any_keyword_in. rewrite !existsb_exists.
  intros Hsub (k & Hin & Hc). exists k. split; [|done].
  by apply list_elem_of_In, Hsub, list_elem_of_In.
Qed.

Lemma filter_ext_sublist {A} (p q : A -> bool) l :
  (forall x, p x = true -> q x = true) ->
  List.filter p l `sublist_of` List.filter q l.
Proof.
  intros Hpq. induction l as [|x l IH]; simpl; [constructor|].
  destruct (p x) eqn:Hp.
  - rewrite (Hpq x Hp). by constructor.
  - destruct (q x); [by constructor|done].
Qed.

(** X2. The result depends on the keyword list only through the set of
    its lowercased keywords: two lists with the same lowercased keywords,
    in whatever order, casing or multiplicity, select the same ids. *)
Theorem filter_by_keywords_keyword_set corpus kws1 kws2 :
  (forall k, k ∈ lower <$> kws1 <-> k ∈ lower <$> kws2) ->
  filter_by_keywords corpus kws1 = filter_by_keywords corpus kws2.
Proof.
  intros Hsame. rewrite !filter_by_keywords_eq. f_equal.
  apply List.filter_ext. intros r.
  destruct (any_keyword_in (lower <$> kws1) r) eqn:E1;
    destruct (any_keyword_in (lower <$> kws2) r) eqn:E2; try done.
  - apply (any_keyword_in_ext _ (lower <$> kws2)) in E1; [congruence|].
    intros k. apply Hsame.
  - apply (any_keyword_in_ext _ (lower <$> kws1)) in E2; [congruence|].
    intros k. apply Hsame.
Qed.

Lemma filter_by_keywords_keyword_set_witness :
  filter_by_keywords
    [Scraped.mk "A" "red sequin gown" "Gown" "Acme"]
    ["Sequin"; "BEADED"]%string
  = filter_by_keywords
      [Scraped.mk "A" "red sequin gown" "Gown" "Acme"]
      ["beaded"; "SEQUIN"; "sequin"]%string.
Proof.
  apply (filter_by_keywords_keyword_set
           [Scraped.mk "A" "red sequin gown" "Gown" "Acme"]
           ["Sequin"; "BEADED"]%string ["beaded"; "SEQUIN"; "sequin"]%string).
  intros k. simpl. rewrite !elem_of_cons, !elem_of_nil. tauto.
Defined.

(** X3. Edge cases of the keyword list: with no keyword nothing is
    selected, and a list that holds the empty keyword selects every id of
    the corpus, the empty string being a substring of every text. *)
Theorem filter_by_keywords_edge_keywords corpus :
  filter_by_keywords corpus [] = []
  /\ (forall kws, EmptyString ∈ kws ->
        filter_by_keywords corpus kws = Scraped.mp_code <$> corpus).
Proof.
  split.
  - rewrite filter_by_keywords_eq.
    induction corpus as [|r corpus IH]; [done|exact IH].
  - intros kws Hin. rewrite filter_by_keywords_eq. f_equal.
    induction corpus as [|r corpus IH]; [done|]. simpl.
    assert (any_keyword_in (lower <$> kws) r = true) as ->; [|by rewrite IH].
    apply any_keyword_in_spec. exists EmptyString. split.
    + by apply (list_elem_of_fmap_2 lower) in Hin.
    + by exists EmptyString, (Scraped.searchable_text r).
Qed.

Lemma filter_by_keywords_edge_keywords_witness :
  filter_by_keywords
    [Scraped.mk "A" "red sequin gown" "Gown" "Acme";
     Scraped.mk "B" "plain cotton dress" "Dress" "Acme"]
    ["sequin"; EmptyString]%string
  = ["A"; "B"]%string.
Proof.
  apply (proj2 (filter_by_keywords_edge_keywords
                  [Scraped.mk "A" "red sequin gown" "Gown" "Acme";
                   Scraped.mk "B" "plain cotton dress" "Dress" "Acme"])
           ["sequin"; EmptyString]%string).
  right. left.
Defined.

(** X4. Adding keywords to a group never removes an id: the ids selected
    by a list of keywords are a sub-list of those selected by any longer
    list, which in turn are a sub-list of the ids of the corpus. *)
Theorem filter_by_keywords_monotone corpus kws more :
  filter_by_keywords corpus kws `sublist_of` filter_by_keywords corpus (kws ++ more)
  /\ filter_by_keywords corpus (kws ++ more) `sublist_of` Scraped.mp_code <$> corpus.
Proof.
  rewrite !filter_by_keywords_eq. split.
  - apply fmap_sublist, filter_ext_sublist. intros r.
    apply any_keyword_in_ext. intros k Hk. rewrite fmap_app. apply elem_of_app. by left.
  - apply fmap_sublist.
    induction corpus as [|r corpus IH]; simpl; [constructor|].
    destruct (any_keyword_in _ r); by constructor.
Qed.

(** ** Substrings of joined parts *)

Lemma is_substring_refl s : is_substring s s.
Proof. exists EmptyString, EmptyString. by rewrite append_empty_r. Qed.

Lemma is_substring_app_l s a b : is_substring s a -> is_substring s (a +:+ b).
Proof.
  intros (p & q & ->). exists p, (q +:+ b). by rewrite !append_assoc.
Qed.

Lemma is_substring_app_r s a b : is_substring s b -> is_substring s (a +:+ b).
Proof.
  intros (p & q & ->). exists (a +:+ p), q. by rewrite !append_assoc.
Qed.

Lemma is_substring_empty s : is_substring EmptyString s.
Proof. by exists EmptyString, s. Qed.

Lemma is_substring_of_empty s : is_substring s EmptyString -> s = EmptyString.
Proof.
  intros ([|c p] & q & H); [|discriminate].
  destruct s; [done|discriminate].
Qed.

Lemma join_cons sep p q rest :
  join sep (p :: q :: rest) = p +:+ sep +:+ join sep (q :: rest).
Proof. reflexivity. Qed.

(** Every part is a substring of the joined text. *)
Lemma is_substring_join sep parts part :
  part ∈ parts -> is_substring part (join sep parts).
Proof.
  induction parts as [|p [|q rest] IH]; intros Hin.
  - by apply elem_of_nil in Hin.
  - apply list_elem_of_singleton in Hin as ->. apply is_substring_refl.
  - rewrite join_cons. apply elem_of_cons in Hin as [->|Hin].
    + apply is_substring_app_l, is_substring_refl.
    + by apply is_substring_app_r, is_substring_app_r, IH.
Qed.

Lemma truthy_spec s : truthy s = false <-> s = EmptyString.
Proof. by destruct s. Qed.

Lemma is_substring_joined_parts s parts part :
  part ∈ parts -> is_substring s part ->
  is_substring s (join " " (List.filter truthy parts)).
Proof.
  intros Hin Hs. destruct (truthy part) eqn:Ht.
  - eapply is_substring_trans; [exact Hs|].
    apply is_substring_join, list_elem_of_In, filter_In.
    split; [by apply list_elem_of_In|done].
  - apply truthy_spec in Ht as ->. apply is_substring_of_empty in Hs as ->.
    apply is_substring_empty.
Qed.

(** ** What paging collects and requests *)

Lemma listed_spec r p :
  listed r = Some p ->
  exists web_url,
    Listing.webURL r = Some web_url
    /\ Product.mp_code p = Listing.productId r
    /\ truthy (Product.mp_code p) = true
    /\ Product.url p =
         (if startswith web_url "http" then web_url
          else "https://luxury.tatacliq.com" +:+ web_url)
    /\ Product.title p = Listing.productname r
    /\ Product.brand p = Listing.brandname r.
Proof.
  unfold listed. destruct (truthy (Listing.productId r)) eqn:Hid; [|done].
  destruct (Listing.webURL r) as [web_url|]; [|done].
  intros [= <-]. exists web_url. by repeat split.
Qed.

Lemma processed_sublist products r : r ∈ processed products -> r ∈ products.
Proof.
  induction products as [|r' products IH]; [done|]. cbn [processed].
  destruct (record_raises r'); [by intros ?%elem_of_nil|].
  intros [->|Hin]%elem_of_cons; [by left|]. right. by apply IH.
Qed.

Lemma elem_of_page_items o p :
  p ∈ page_items o ->
  exists records r, o = Responded 200 (Some records) /\ r ∈ records /\ listed r = Some p.
Proof.
  destruct o as [|status [records|]]; simpl; try by intros ?%elem_of_nil.
  destruct (Z.eqb_spec status 200) as [->|]; [|by intros ?%elem_of_nil].
  intros (r & Hin & Hr)%list_elem_of_omap. exists records, r.
  split; [done|]. split; [by apply processed_sublist|done].
Qed.

(** X7. Every item that paging collects comes from a record of a page that
    answered 200, among the pages requested. The record has a product id,
    not empty, and a [webURL] that is a string; the item carries the
    record's product id, title and brand, and as its URL the [webURL]
    itself when that starts with http, the site's address
    https://luxury.tatacliq.com followed by the [webURL] otherwise. *)
Theorem discovered_items_are_listed catalog search_text pause ceiling items p :
  outcome (discover catalog search_text pause ceiling) = inr items ->
  p ∈ items ->
  exists page records r web_url,
    page < count_gets (effects (discover catalog search_text pause ceiling))
    /\ catalog page = Responded 200 (Some records)
    /\ r ∈ records
    /\ Listing.webURL r = Some web_url
    /\ Product.mp_code p = Listing.productId r
    /\ truthy (Product.mp_code p) = true
    /\ Product.url p =
         (if startswith web_url "http" then web_url
          else "https://luxury.tatacliq.com" +:+ web_url)
    /\ Product.title p = Listing.productname r
    /\ Product.brand p = Listing.brandname r.
Proof.
  destruct (discover_run catalog search_text pause ceiling)
    as (n & _ & _ & _ & Hreq & Hout & _).
  rewrite Hout, count_gets_requested_urls, Hreq, length_fmap, length_seq.
  intros [= <-] Hin.
  apply list_elem_of_In, in_flat_map in Hin as (page & Hpage & Hin).
  apply in_seq in Hpage.
  apply list_elem_of_In, elem_of_page_items in Hin as (records & r & Hcat & Hr & Hlisted).
  destruct (listed_spec r p Hlisted) as (web_url & ? & ? & ? & ? & ? & ?).
  exists page, records, r, web_url. repeat split; try done.
  clear -Hpage. lia.
Qed.

Lemma discovered_items_are_listed_witness :
  exists page records r web_url,
    page < count_gets (effects (discover three_page_catalog "q" 300 500))
    /\ three_page_catalog page = Responded 200 (Some records)
    /\ r ∈ records
    /\ Listing.webURL r = Some web_url
    /\ Product.mp_code (Product.mk "MP1" "https://luxury.tatacliq.com/p" "Gown" "Acme") =
         Listing.productId r
    /\ truthy (Product.mp_code (Product.mk "MP1" "https://luxury.tatacliq.com/p" "Gown" "Acme")) = true
    /\ Product.url (Product.mk "MP1" "https://luxury.tatacliq.com/p" "Gown" "Acme") =
         (if startswith web_url "http" then web_url
          else "https://luxury.tatacliq.com" +:+ web_url)
    /\ Product.title (Product.mk "MP1" "https://luxury.tatacliq.com/p" "Gown" "Acme") =
         Listing.productname r
    /\ Product.brand (Product.mk "MP1" "https://luxury.tatacliq.com/p" "Gown" "Acme") =
         Listing.brandname r.
Proof.
  eapply (discovered_items_are_listed three_page_catalog "q" 300 500).
  - reflexivity.
  - vm_compute. left.
Defined.

Lemma append_length s1 s2 : String.length (s1 +:+ s2) = String.length s1 + String.length s2.
Proof. induction s1 as [|c s1 IH]; [done|]. rewrite append_cons. simpl. by rewrite IH. Qed.

Lemma append_inj_l s1 s2 rest : s1 +:+ rest = s2 +:+ rest -> s1 = s2.
Proof.
  revert s2; induction s1 as [|c s1 IH]; intros [|d s2] H; [done| | |].
  - apply (f_equal String.length) in H. rewrite !append_length in H. simpl in H. lia.
  - apply (f_equal String.length) in H. rewrite !append_length in H. simpl in H. lia.
  - rewrite !append_cons in H. injection H as -> H. by rewrite (IH s2 H).
Qed.

Lemma build_api_url_inj search_text : Inj (=) (=) (build_api_url search_text).
Proof.
  intros page1 page2 H. unfold build_api_url in H.
  repeat (apply String.app_inj in H).
  apply append_inj_l in H. by apply (inj pretty) in H.
Qed.

(** X8. The URLs built for two different pages differ, and paging never
    requests the same URL twice. *)
Theorem paging_requests_are_distinct catalog search_text pause ceiling :
  (forall page1 page2,
     build_api_url search_text page1 = build_api_url search_text page2 -> page1 = page2)
  /\ NoDup (requested_urls (effects (discover catalog search_text pause ceiling))).
Proof.
  split; [apply build_api_url_inj|].
  destruct (discover_run catalog search_text pause ceiling)
    as (n & _ & _ & _ & Hreq & _).
  rewrite Hreq.
  apply (NoDup_fmap_2 _ (Inj0 := build_api_url_inj search_text)), NoDup_seq.
Qed.

Lemma paging_requests_are_distinct_witness : 3 = 3.
Proof.
  apply (proj1 (paging_requests_are_distinct three_page_catalog "q" 300 500) 3 3).
  reflexivity.
Defined.

(** ** [extract_search_text] *)

Lemma contains_char_cons a c s :
  contains (String a EmptyString) (String c s) =
  Ascii.eqb a c || contains (String a EmptyString) s.
Proof. simpl. by destruct (Ascii.eqb a c). Qed.

Lemma contains_char_all a s :
  contains (String a EmptyString) s = false <->
  all_chars (fun c => negb (Ascii.eqb a c)) s = true.
Proof.
  induction s as [|c s IH]; [done|].
  rewrite contains_char_cons. cbn [all_chars].
  destruct (Ascii.eqb a c); simpl; [done|exact IH].
Qed.

Lemma value_run_no_amp s : contains "&" (value_run s) = false.
Proof.
  apply contains_char_all. induction s as [|c s IH]; [done|]. cbn [value_run].
  destruct (Ascii.eqb_spec c "&") as [->|Hne]; [done|]. cbn [all_chars].
  rewrite IH, andb_true_r. apply negb_true_iff, Ascii.eqb_neq. congruence.
Qed.

Lemma value_run_stops value rest :
  contains "&" value = false ->
  value_run value = value /\ value_run (value +:+ "&" +:+ rest) = value.
Proof.
  intros H%contains_char_all. induction value as [|c value IH]; [done|].
  cbn [all_chars] in H. apply andb_true_iff in H as [Hc H].
  rewrite append_cons. cbn [value_run].
  rewrite Ascii.eqb_sym in Hc. apply negb_true_iff in Hc. rewrite Hc.
  destruct (IH H) as [-> ->]. done.
Qed.

Lemma value_run_prefix s : exists after, s = value_run s +:+ after.
Proof.
  induction s as [|c s [after IH]]; [by exists EmptyString|]. cbn [value_run].
  destruct (Ascii.eqb c "&").
  - by exists (String c s).
  - exists after. rewrite append_cons. by rewrite <- IH.
Qed.

Lemma after_literal_spec pre s rest :
  after_literal pre s = Some rest -> s = pre +:+ rest.
Proof.
  revert s; induction pre as [|a pre IH]; intros s; simpl.
  - by intros [= ->].
  - destruct s as [|b s]; [done|].
    destruct (Ascii.eqb_spec a b) as [->|]; [|done].
    intros H%IH. rewrite append_cons. by rewrite H.
Qed.

Lemma alternative_spec name s v :
  alternative name s = Some v ->
  truthy v = true /\ contains "&" v = false /\ is_substring v s.
Proof.
  unfold alternative, group1.
  destruct (after_literal _ s) as [value|] eqn:E; [|done].
  destruct (truthy (value_run value)) eqn:Ht; [|done].
  intros [= <-]. split; [done|]. split; [apply value_run_no_amp|].
  apply after_literal_spec in E as ->.
  destruct (value_run_prefix value) as [after Hv].
  exists (name +:+ "="), after. by rewrite <- Hv.
Qed.

Lemma match_param_spec s v :
  match_param s = Some v ->
  truthy v = true /\ contains "&" v = false /\ is_substring v s.
Proof.
  unfold match_param. destruct (alternative "q" s) as [v'|] eqn:E.
  - intros [= <-]. by eapply alternative_spec.
  - apply alternative_spec.
Qed.

Lemma re_search_spec url v :
  re_search url = Some v ->
  truthy v = true /\ contains "&" v = false /\ is_substring v url.
Proof.
  induction url as [|c url IH]; [done|]. cbn [re_search].
  assert (Hrest : re_search url = Some v ->
                  truthy v = true /\ contains "&" v = false
                  /\ is_substring v (String c url)).
  { intros (? & ? & Hsub)%IH. split; [done|]. split; [done|].
    by apply (is_substring_app_r v (String c EmptyString) url). }
  destruct (is_param_start c); [|done].
  destruct (match_param url) as [v'|] eqn:E; [|done].
  intros [= <-]. destruct (match_param_spec _ _ E) as (? & ? & Hsub).
  split; [done|]. split; [done|].
  by apply (is_substring_app_r v' (String c EmptyString) url).
Qed.

(** Characters that cannot start a parameter are skipped. *)
Lemma re_search_skip base rest :
  all_chars (fun c => negb (is_param_start c)) base = true ->
  re_search (base +:+ rest) = re_search rest.
Proof.
  induction base as [|c base IH]; [done|]. cbn [all_chars].
  intros [Hc H]%andb_true_iff. rewrite append_cons. cbn [re_search].
  apply negb_true_iff in Hc. rewrite Hc. by apply IH.
Qed.

Lemma no_param_start_all base :
  contains "?" base = false -> contains "&" base = false ->
  all_chars (fun c => negb (is_param_start c)) base = true.
Proof.
  intros Hq%contains_char_all Ha%contains_char_all.
  induction base as [|c base IH]; [done|]. cbn [all_chars] in *.
  apply andb_true_iff in Hq as [Hq1 Hq2]. apply andb_true_iff in Ha as [Ha1 Ha2].
  rewrite IH by done. unfold is_param_start.
  rewrite (Ascii.eqb_sym c "?"), (Ascii.eqb_sym c "&").
  apply negb_true_iff in Hq1, Ha1. by rewrite Hq1, Ha1.
Qed.

Lemma group1_value value rest :
  truthy value = true -> contains "&" value = false ->
  group1 value = Some value /\ group1 (value +:+ "&" +:+ rest) = Some value.
Proof.
  intros Ht Hamp. unfold group1.
  destruct (value_run_stops value rest Hamp) as [-> ->]. by rewrite Ht.
Qed.

(** X9. The search text is never empty and never holds an ampersand; it
    is either cut out of the URL or the default text. When the first [?]
    or [&] of the URL starts a parameter [q] or [searchText] with a value
    that is not empty, that value, up to the next [&] or the end, is the
    search text. *)
Theorem extract_search_text_value :
  (forall url,
     truthy (extract_search_text url) = true
     /\ contains "&" (extract_search_text url) = false
     /\ (is_substring (extract_search_text url) url
         \/ extract_search_text url = ":relevance:category:LSH1110101:inStockFlag:true"))
  /\ (forall base sep name value tail,
        contains "?" base = false -> contains "&" base = false ->
        is_param_start sep = true ->
        name = "q" \/ name = "searchText" ->
        truthy value = true -> contains "&" value = false ->
        tail = EmptyString \/ (exists rest, tail = "&" +:+ rest) ->
        extract_search_text (base +:+ String sep (name +:+ "=" +:+ value +:+ tail)) = value).
Proof.
  split.
  - intros url. unfold extract_search_text.
    destruct (re_search url) as [v|] eqn:E.
    + destruct (re_search_spec _ _ E) as (? & ? & ?). auto.
    + repeat split; auto.
  - intros base sep name value tail Hq Ha Hsep Hname Ht Hamp Htail.
    unfold extract_search_text.
    rewrite re_search_skip by (by apply no_param_start_all).
    cbn [re_search]. rewrite Hsep.
    assert (Hg : group1 (value +:+ tail) = Some value).
    { destruct Htail as [-> | [rest ->]].
      - rewrite append_empty_r. by apply (group1_value value EmptyString).
      - by apply group1_value. }
    assert (match_param (name +:+ "=" +:+ value +:+ tail) = Some value) as ->; [|done].
    unfold match_param, alternative.
    destruct Hname as [-> | ->].
    + change (after_literal ("q" +:+ "=") ("q" +:+ "=" +:+ value +:+ tail))
        with (Some (value +:+ tail)). cbv beta iota. by rewrite Hg.
    + change (after_literal ("q" +:+ "=") ("searchText" +:+ "=" +:+ value +:+ tail))
        with (@None string).
      change (after_literal ("searchText" +:+ "=") ("searchText" +:+ "=" +:+ value +:+ tail))
        with (Some (value +:+ tail)). cbv beta iota. by rewrite Hg.
Qed.

Lemma extract_search_text_value_witness :
  extract_search_text
    ("https://luxury.tatacliq.com/luxury/c-lsh1110101"
     +:+ String "?"%char ("q" +:+ "=" +:+ "%3Arelevance%3AinStockFlag%3Atrue" +:+ "&" +:+ "page=2"))
  = "%3Arelevance%3AinStockFlag%3Atrue".
Proof.
  apply (proj2 extract_search_text_value
           "https://luxury.tatacliq.com/luxury/c-lsh1110101" "?"%char "q"
           "%3Arelevance%3AinStockFlag%3Atrue" ("&" +:+ "page=2")).
  - reflexivity.
  - reflexivity.
  - reflexivity.
  - by left.
  - reflexivity.
  - reflexivity.
  - right. by exists "page=2".
Defined.

Lemma all_chars_app p s1 s2 :
  all_chars p (s1 +:+ s2) = all_chars p s1 && all_chars p s2.
Proof.
  induction s1 as [|c s1 IH]; [done|]. rewrite append_cons. cbn [all_chars].
  by rewrite IH, andb_assoc.
Qed.

Lemma pretty_N_char_no_start y : is_param_start (pretty_N_char y) = false.
Proof.
  destruct y as [|p]; [reflexivity|].
  do 4 (try (destruct p as [p|p|]; try reflexivity)).
Qed.

Lemma pretty_N_go_no_start x s :
  all_chars (fun c => negb (is_param_start c)) s = true ->
  all_chars (fun c => negb (is_param_start c)) (pretty_N_go x s) = true.
Proof.
  revert s. induction (N.lt_wf_0 x) as [x _ IH]. intros s Hs.
  destruct (decide (x = 0)%N) as [->|Hne].
  - by rewrite pretty_N_go_0.
  - rewrite pretty_N_go_step by lia. apply IH.
    + apply N.div_lt; lia.
    + cbn [all_chars]. by rewrite pretty_N_char_no_start, Hs.
Qed.

Lemma pretty_nat_no_start (n : nat) :
  all_chars (fun c => negb (is_param_start c)) (pretty n) = true.
Proof.
  unfold pretty, pretty_nat, pretty, pretty_N.
  destruct (decide (N.of_nat n = 0)%N); [done|].
  by apply pretty_N_go_no_start.
Qed.

(** X10. [extract_search_text] undoes [build_api_url]: from the URL built
    for any page with a search text that is not empty and holds no
    ampersand, it cuts out that same search text. *)
Theorem extract_search_text_build_api_url search_text page :
  truthy search_text = true ->
  contains "&" search_text = false ->
  extract_search_text (build_api_url search_text page) = search_text.
Proof.
  intros Ht Hamp. unfold extract_search_text, build_api_url.
  rewrite re_search_skip by reflexivity.
  change ("?" +:+ ?rest) with (String "?"%char rest). cbn [re_search].
  change (is_param_start "?") with true. cbv beta iota.
  change (match_param ("pageSize=24" +:+ ?rest)) with (@None string). cbv beta iota.
  rewrite re_search_skip by reflexivity.
  change ("&" +:+ ?rest) with (String "&"%char rest). cbn [re_search].
  change (is_param_start "&") with true. cbv beta iota.
  change (match_param ("page=" +:+ ?rest)) with (@None string). cbv beta iota.
  rewrite re_search_skip by reflexivity.
  rewrite re_search_skip by apply pretty_nat_no_start.
  change ("&" +:+ "searchText=" +:+ ?rest)
    with (String "&"%char ("searchText=" +:+ rest)).
  cbn [re_search]. change (is_param_start "&") with true. cbv beta iota.
  assert (match_param ("searchText=" +:+ search_text
                       +:+ "&" +:+ "isPwa=true" +:+ "&" +:+ "channel=web"
                       +:+ "&" +:+ "isMDE=true")
          = Some search_text) as ->; [|done].
  unfold match_param, alternative.
  change (after_literal ("q" +:+ "=") ("searchText=" +:+ ?rest)) with (@None string).
  change (after_literal ("searchText" +:+ "=") ("searchText=" +:+ ?rest)) with (Some rest).
  cbv beta iota.
  by destruct (group1_value search_text
                 ("isPwa=true" +:+ "&" +:+ "channel=web" +:+ "&" +:+ "isMDE=true")
                 Ht Hamp) as [_ ->].
Qed.

Lemma extract_search_text_build_api_url_witness :
  extract_search_text (build_api_url ":relevance:category:LSH1110101:inStockFlag:true" 7)
  = ":relevance:category:LSH1110101:inStockFlag:true".
Proof.
  apply (extract_search_text_build_api_url
           ":relevance:category:LSH1110101:inStockFlag:true" 7); reflexivity.
Defined.

(** ** [scrape_all_products]: one fetch per item *)

Lemma scrape_product_once_run o product :
  exists t,
    scrape_product_once o product = (inr (scraped product <$> page_of o), t)
    /\ count_gets t = 1.
Proof.
  unfold scrape_product_once, session_get, read_and_parse, sleep, emit, raise.
  destruct o as [e|status [e|page]]; simpl;
    try destruct (status =? 200)%Z; simpl; eexists; split; reflexivity.
Qed.

Lemma scrape_pages_once_run world i products acc :
  outcome (scrape_pages_once world i products acc) =
    inr (acc ++ omap id (imap (fun j product => scraped product <$> page_of (world (i + j)))
                              products))
  /\ count_gets (effects (scrape_pages_once world i products acc)) = length products.
Proof.
  revert i acc; induction products as [|p products IH]; intros i acc.
  - simpl. by rewrite app_nil_r.
  - destruct (scrape_product_once_run (world i) p) as (t & E & Hgets).
    cbn [scrape_pages_once]. rewrite IO_bind_run, E. simpl outcome. simpl effects.
    rewrite count_gets_app, Hgets.
    destruct (IH (S i) (match scraped p <$> page_of (world i) with
                        | Some d => acc ++ [d]
                        | None => acc
                        end)) as [-> ->].
    rewrite imap_cons, omap_cons_eq, Nat.add_0_r. split; [|done]. f_equal.
    assert (Himap : imap (fun j product => scraped product <$> page_of (world (S i + j))) products
                  = imap ((fun j product => scraped product <$> page_of (world (i + j))) ∘ S)
                         products).
    { apply imap_ext. intros j q _. simpl. by rewrite Nat.add_succ_r. }
    rewrite Himap.
    destruct (scraped p <$> page_of (world i)); simpl; [by rewrite <- app_assoc|done].
Qed.

(** X11. The harvester without retries makes exactly one GET per item and
    returns, in the order of the list, the records of exactly those items
    whose GET answers 200 with a body that reads and parses; an item whose
    only GET fails is left out. *)
Theorem scrape_pages_once_one_get_each world products :
  count_gets (effects (scrape_pages_once world 0 products [])) = length products
  /\ outcome (scrape_pages_once world 0 products []) = inr (harvested_once world products)
  /\ (forall r, r ∈ harvested_once world products <->
        exists i p page,
          products !! i = Some p /\ page_of (world i) = Some page /\ r = scraped p page)
  /\ Scraped.mp_code <$> harvested_once world products
     `sublist_of` Product.mp_code <$> products.
Proof.
  destruct (scrape_pages_once_run world 0 products []) as [Hout Hgets].
  split; [done|]. split; [done|]. split.
  - intros r. unfold harvested_once. rewrite list_elem_of_omap. split.
    + intros (o & Hin & Ho). simpl in Ho. subst o.
      apply list_elem_of_lookup in Hin as [i Hi]. rewrite list_lookup_imap in Hi.
      destruct (products !! i) as [p|] eqn:E; [|done]. simpl in Hi.
      destruct (page_of (world i)) as [page|] eqn:Hp; [|done].
      exists i, p, page. split; [done|]. split; [done|]. by injection Hi.
    + intros (i & p & page & Hi & Hp & ->). exists (Some (scraped p page)). split; [|done].
      apply list_elem_of_lookup. exists i. by rewrite list_lookup_imap, Hi, Hp.
  - destruct (omap_imap_survivors (fun p r => exists page, r = scraped p page)
                (fun i product => scraped product <$> page_of (world i)) products)
      as (survivors & Hsub & Hall).
    { intros i p r. destruct (page_of (world i)) as [page|]; [|done].
      intros [= <-]. by exists page. }
    fold (harvested_once world products) in Hall.
    assert (E : Scraped.mp_code <$> harvested_once world products
                = Product.mp_code <$> survivors).
    { clear Hsub. induction Hall as [|p r ps rs [page ->] _ IH]; [done|].
      rewrite !fmap_cons, IH. done. }
    rewrite E. by apply fmap_sublist.
Qed.

Lemma scrape_pages_once_one_get_each_witness :
  scraped (Product.mk "A" "https://x/a" "Gown" "Acme") (Soup.mk (Some "Hand-beaded") None [])
  ∈ harvested_once
      (fun i => second_item_times_out (Soup.mk (Some "Hand-beaded") None []) i 0)
      [Product.mk "A" "https://x/a" "Gown" "Acme";
       Product.mk "B" "https://x/b" "Dress" "Acme"].
Proof.
  apply (proj1 (proj2 (proj2
    (scrape_pages_once_one_get_each
       (fun i => second_item_times_out (Soup.mk (Some "Hand-beaded") None []) i 0)
       [Product.mk "A" "https://x/a" "Gown" "Acme";
        Product.mk "B" "https://x/b" "Dress" "Acme"])))).
  exists 0, (Product.mk "A" "https://x/a" "Gown" "Acme"),
    (Soup.mk (Some "Hand-beaded") None []).
  repeat split; reflexivity.
Defined.

Lemma omap_imap_sublist {A B} (f g : nat -> A -> option B) l :
  (forall i x y, f i x = Some y -> g i x = Some y) ->
  omap id (imap f l) `sublist_of` omap id (imap g l).
Proof.
  revert f g; induction l as [|x l IH]; intros f g Hfg; [done|].
  rewrite !imap_cons, !omap_cons_eq. simpl.
  specialize (IH (f ∘ S) (g ∘ S) (fun i => Hfg (S i))).
  destruct (f 0 x) as [y|] eqn:E.
  - rewrite (Hfg 0 x y E). by constructor.
  - destruct (g 0 x); [by constructor|done].
Qed.

(** X12. Retrying never loses an item: when the first GET of each item
    answers as the only GET of the harvester without retries does, every
    record that harvester returns is returned, identical and in the same
    order, by the batch with retries as well. *)
Theorem retries_keep_first_attempt_records world order products debug :
  order ≡ₚ seq 0 (length products) ->
  exists corpus,
    scrape_products_batch world order products debug = Some corpus
    /\ harvested_once (fun i => world i 0) products `sublist_of` corpus.
Proof.
  intros Hperm. exists (harvested world products). split.
  - apply scrape_products_batch_returns. by apply permutation_covers.
  - apply omap_imap_sublist. intros i p r.
    unfold harvest_result. simpl first_success.
    by destruct (page_of (world i 0)).
Qed.

Lemma retries_keep_first_attempt_records_witness :
  exists corpus,
    scrape_products_batch
      (second_item_times_out (Soup.mk (Some "Hand-beaded") None []))
      [1; 0]
      [Product.mk "A" "https://x/a" "Gown" "Acme";
       Product.mk "B" "https://x/b" "Dress" "Acme"] false = Some corpus
    /\ harvested_once
         (fun i => second_item_times_out (Soup.mk (Some "Hand-beaded") None []) i 0)
         [Product.mk "A" "https://x/a" "Gown" "Acme";
          Product.mk "B" "https://x/b" "Dress" "Acme"]
       `sublist_of` corpus.
Proof.
  apply (retries_keep_first_attempt_records
           (second_item_times_out (Soup.mk (Some "Hand-beaded") None []))
           [1; 0]
           [Product.mk "A" "https://x/a" "Gown" "Acme";
            Product.mk "B" "https://x/b" "Dress" "Acme"] false).
  simpl. apply perm_swap.
Defined.

(** ** [scrape_all_products_async] and [scrape_all_products], end to end *)

Lemma discovered_from_listing catalog search_text pause ceiling items p :
  outcome (discover catalog search_text pause ceiling) = inr items ->
  p ∈ items ->
  exists page records r,
    catalog page = Responded 200 (Some records) /\ r ∈ records /\ listed r = Some p.
Proof.
  destruct (discover_run catalog search_text pause ceiling)
    as (n & _ & _ & _ & _ & Hout & _).
  rewrite Hout.
  intros [= <-] Hin.
  apply list_elem_of_In, in_flat_map in Hin as (page & _ & Hin).
  apply list_elem_of_In, elem_of_page_items in Hin as (records & r & Hcat & Hr & Hlisted).
  by exists page, records, r.
Qed.

Lemma discover_never_raises catalog search_text pause ceiling :
  exists items, outcome (discover catalog search_text pause ceiling) = inr items.
Proof.
  destruct (discover_run catalog search_text pause ceiling)
    as (n & _ & _ & _ & _ & Hout & _).
  eexists. exact Hout.
Qed.

(** X13. [scrape_all_products_async] returns a corpus whatever the listing
    and the item pages answer, in whatever order the tasks complete; the
    corpus is no longer than the list of items found by paging, and every
    record in it carries the product id (not empty), the title and the
    brand of a record of a listing page that answered 200. When paging
    finds nothing the corpus is empty. *)
Theorem scrape_all_products_async_provenance catalog world order search_text debug items :
  outcome (discover_async catalog search_text) = inr items ->
  order ≡ₚ seq 0 (length items) ->
  exists corpus,
    scrape_all_products_async catalog world order search_text debug = Some corpus
    /\ length corpus <= length items
    /\ (items = [] -> corpus = [])
    /\ (forall r, r ∈ corpus ->
          exists page records rec,
            catalog page = Responded 200 (Some records)
            /\ rec ∈ records
            /\ Scraped.mp_code r = Listing.productId rec
            /\ truthy (Scraped.mp_code r) = true
            /\ Scraped.title r = Listing.productname rec
            /\ Scraped.brand r = Listing.brandname rec).
Proof.
  intros Hitems Hperm. exists (harvested world items).
  unfold scrape_all_products_async. rewrite Hitems.
  split; [|split; [|split]].
  - apply scrape_products_batch_returns. by apply permutation_covers.
  - apply harvested_length.
  - by intros ->.
  - intros r (i & p & Hi & Hr)%elem_of_harvested.
    destruct (harvest_result_scraped _ _ _ Hr) as [page' ->].
    destruct (discovered_from_listing catalog search_text 300 500 items p Hitems)
      as (page & records & rec & Hcat & Hrec & Hlisted);
      [by eapply list_elem_of_lookup_2|].
    destruct (listed_spec rec p Hlisted) as (web_url & _ & ? & ? & _ & ? & ?).
    exists page, records, rec. by repeat split.
Qed.

Lemma scrape_all_products_async_provenance_witness :
  exists corpus,
    scrape_all_products_async
      (fun page => match page with
                   | 0 => Responded 200 (Some [Listing.mk "MP1" (Some "/p") "Gown" "Acme";
                                               Listing.mk EmptyString (Some "/q") "Dress" "Acme"])
                   | _ => RequestRaises
                   end)
      (fun _ _ => GetResponds 200 (inr (Soup.mk (Some "Hand-beaded") None [])))
      [0] "q" false = Some corpus
    /\ length corpus <= length [Product.mk "MP1" "https://luxury.tatacliq.com/p" "Gown" "Acme"]
    /\ ([Product.mk "MP1" "https://luxury.tatacliq.com/p" "Gown" "Acme"] = [] -> corpus = [])
    /\ (forall r, r ∈ corpus ->
          exists page records rec,
            match page with
            | 0 => Responded 200 (Some [Listing.mk "MP1" (Some "/p") "Gown" "Acme";
                                        Listing.mk EmptyString (Some "/q") "Dress" "Acme"])
            | _ => RequestRaises
            end = Responded 200 (Some records)
            /\ rec ∈ records
            /\ Scraped.mp_code r = Listing.productId rec
            /\ truthy (Scraped.mp_code r) = true
            /\ Scraped.title r = Listing.productname rec
            /\ Scraped.brand r = Listing.brandname rec).
Proof.
  apply (scrape_all_products_async_provenance
           (fun page => match page with
                        | 0 => Responded 200 (Some [Listing.mk "MP1" (Some "/p") "Gown" "Acme";
                                                    Listing.mk EmptyString (Some "/q") "Dress" "Acme"])
                        | _ => RequestRaises
                        end)
           (fun _ _ => GetResponds 200 (inr (Soup.mk (Some "Hand-beaded") None [])))
           [0] "q" false
           [Product.mk "MP1" "https://luxury.tatacliq.com/p" "Gown" "Acme"]).
  - reflexivity.
  - reflexivity.
Defined.

(** ** What a run of [scrape_single_product] costs and reports *)

Lemma failure_lines_app t1 t2 :
  failure_lines (t1 ++ t2) = failure_lines t1 ++ failure_lines t2.
Proof.
  induction t1 as [|ev t1 IH]; [done|].
  destruct ev as [ms|u|[]]; simpl; by rewrite IH.
Qed.

Section one_item_cost.
Variable w : nat -> fetch_outcome.
Variable product : Product.t.
Variables index total : nat.
Variable show_debug : bool.

Lemma attempt_body_cost attempt :
  exists tail,
    attempt_body w product index total show_debug attempt =
    (inr (match page_of (w attempt) with
          | Some page => Return (Some (scraped product page))
          | None => if attempt <? 2 then Continue else Return None
          end),
     Sleep (200 * Z.of_nat attempt) :: Get (Product.url product) :: tail)
    /\ quiet tail
    /\ (0 <= total_sleep tail <= if (attempt <? 2)%nat then 1000 else 0)%Z
    /\ match page_of (w attempt) with
       | Some page => failure_lines tail = []
       | None =>
           if attempt <? 2 then failure_lines tail = []
           else exists l, failure_lines tail = [l]
                          /\ reports index total (Product.mp_code product) l
       end.
Proof.
  unfold attempt_body, session_get, read_and_parse, when, sleep, print, emit, raise.
  generalize (index mod 100 =? 0); intros progress.
  generalize (attempt <? 2); intros retry.
  destruct (w attempt) as [[]|status [[]|page]]; simpl;
    try destruct (status =? 200)%Z; simpl;
    destruct retry, progress, show_debug; simpl;
    eexists; (split; [reflexivity|]);
    (split; [repeat constructor|]); (split; [simpl; lia|]);
    simpl; try done; eexists; (split; [reflexivity|]); done.
Qed.

Lemma scrape_single_product_cost :
  (300 <= total_sleep (effects (scrape_single_product w product index total show_debug))
       <= 2900)%Z
  /\ match harvest_result w product with
     | Some _ =>
         failure_lines (effects (scrape_single_product w product index total show_debug)) = []
     | None =>
         exists l,
           failure_lines (effects (scrape_single_product w product index total show_debug)) = [l]
           /\ reports index total (Product.mp_code product) l
     end.
Proof.
  destruct (attempt_body_cost 0) as (t0 & E0 & _ & S0 & F0).
  destruct (attempt_body_cost 1) as (t1 & E1 & _ & S1 & F1).
  destruct (attempt_body_cost 2) as (t2 & E2 & _ & S2 & F2).
  unfold scrape_single_product, harvest_result, sleep, emit.
  simpl seq. simpl for_attempts. simpl first_success.
  rewrite E0, E1, E2. clear E0 E1 E2.
  simpl in S0, S1, S2, F0, F1, F2.
  assert (Hcost : forall t rest,
            total_sleep (t ++ rest) = (total_sleep t + total_sleep rest)%Z
            /\ failure_lines (t ++ rest) = failure_lines t ++ failure_lines rest).
  { intros. split; [apply total_sleep_app|apply failure_lines_app]. }
  destruct (page_of (w 0)) as [page0|]; simpl.
  { destruct (Hcost t0 []) as [-> ->]. rewrite F0. simpl. split; [lia|done]. }
  destruct (page_of (w 1)) as [page1|]; simpl.
  { destruct (Hcost t0 (Sleep (200 * Z.of_nat 1) :: Get (Product.url product) :: t1 ++ []))
      as [-> ->]. simpl.
    destruct (Hcost t1 []) as [-> ->]. rewrite F0, F1. simpl. split; [lia|done]. }
  destruct (page_of (w 2)) as [page2|]; simpl.
  - destruct (Hcost t0 (Sleep (200 * Z.of_nat 1) :: Get (Product.url product) :: t1
                        ++ Sleep (200 * Z.of_nat 2) :: Get (Product.url product) :: t2 ++ []))
      as [-> ->]. simpl.
    destruct (Hcost t1 (Sleep (200 * Z.of_nat 2) :: Get (Product.url product) :: t2 ++ []))
      as [-> ->]. simpl.
    destruct (Hcost t2 []) as [-> ->]. rewrite F0, F1, F2. simpl. split; [lia|done].
  - destruct (Hcost t0 (Sleep (200 * Z.of_nat 1) :: Get (Product.url product) :: t1
                        ++ Sleep (200 * Z.of_nat 2) :: Get (Product.url product) :: t2 ++ []))
      as [-> ->]. simpl.
    destruct (Hcost t1 (Sleep (200 * Z.of_nat 2) :: Get (Product.url product) :: t2 ++ []))
      as [-> ->]. simpl.
    destruct (Hcost t2 []) as [-> ->]. destruct F2 as (l & -> & Hl).
    rewrite F0, F1. simpl. split; [lia|]. by exists l.
Qed.
End one_item_cost.

Lemma requested_urls_quiet t : quiet t -> requested_urls t = [].
Proof.
  induction 1 as [|ev t Hev _ IH]; [done|]. by destruct ev.
Qed.

Lemma scrape_single_product_urls w product index total show_debug :
  requested_urls (effects (scrape_single_product w product index total show_debug)) =
  replicate (attempts_made w) (Product.url product).
Proof.
  destruct (attempt_body_run w product index total show_debug 0) as (t0 & E0 & Q0).
  destruct (attempt_body_run w product index total show_debug 1) as (t1 & E1 & Q1).
  destruct (attempt_body_run w product index total show_debug 2) as (t2 & E2 & Q2).
  apply requested_urls_quiet in Q0, Q1, Q2.
  unfold scrape_single_product, attempts_made, sleep, emit.
  simpl seq. simpl for_attempts. simpl first_success.
  rewrite E0, E1, E2. clear E0 E1 E2.
  destruct (page_of (w 0)) as [page0|]; simpl.
  { by rewrite requested_urls_app, Q0. }
  destruct (page_of (w 1)) as [page1|]; simpl.
  { rewrite requested_urls_app, Q0. simpl. by rewrite requested_urls_app, Q1. }
  destruct (page_of (w 2)) as [page2|]; simpl.
  all: rewrite requested_urls_app, Q0; simpl;
       rewrite requested_urls_app, Q1; simpl;
       by rewrite requested_urls_app, Q2.
Qed.

Lemma attempts_made_bounds w : 1 <= attempts_made w <= 3.
Proof.
  unfold attempts_made. simpl.
  destruct (page_of (w 0)); [lia|].
  destruct (page_of (w 1)); [lia|].
  destruct (page_of (w 2)); lia.
Qed.

(** X14. What one item costs and how its failure shows: a run of
    [scrape_single_product] makes between one and three GETs, all of them
    for the item's own URL, and pauses between 0.3 s and 2.9 s in total;
    when it returns no record, exactly one line reporting the failure
    (status, timeout or error) is printed, and it names the item; when it
    returns a record, no such line is printed. *)
Theorem item_cost_and_report w product index total show_debug :
  1 <= count_gets (effects (scrape_single_product w product index total show_debug)) <= 3
  /\ requested_urls (effects (scrape_single_product w product index total show_debug)) =
       replicate
         (count_gets (effects (scrape_single_product w product index total show_debug)))
         (Product.url product)
  /\ (300 <= total_sleep (effects (scrape_single_product w product index total show_debug))
          <= 2900)%Z
  /\ (outcome (scrape_single_product w product index total show_debug) = inr None ->
        exists l,
          failure_lines (effects (scrape_single_product w product index total show_debug)) = [l]
          /\ reports index total (Product.mp_code product) l)
  /\ (forall d,
        outcome (scrape_single_product w product index total show_debug) = inr (Some d) ->
        failure_lines (effects (scrape_single_product w product index total show_debug)) = []).
Proof.
  pose proof (scrape_single_product_urls w product index total show_debug) as Hurls.
  destruct (scrape_single_product_cost w product index total show_debug) as [Hsleep Hlines].
  destruct (scrape_single_product_run w product index total show_debug)
    as (t & E & _ & Hgets).
  rewrite E in *. simpl outcome. simpl effects in *. rewrite Hgets.
  split; [apply attempts_made_bounds|]. split; [done|]. split; [done|].
  split.
  - intros [= Hnone]. by rewrite Hnone in Hlines.
  - intros d [= Hsome]. by rewrite Hsome in Hlines.
Qed.

Lemma item_cost_and_report_witness :
  exists l,
    failure_lines (effects (scrape_single_product
                              (second_item_times_out (Soup.mk None None []) 1)
                              (Product.mk "B" "https://x/b" "Dress" "Acme") 2 2 false)) = [l]
    /\ reports 2 2 (Product.mp_code (Product.mk "B" "https://x/b" "Dress" "Acme")) l.
Proof.
  apply (proj1 (proj2 (proj2 (proj2
    (item_cost_and_report (second_item_times_out (Soup.mk None None []) 1)
                          (Product.mk "B" "https://x/b" "Dress" "Acme") 2 2 false))))).
  reflexivity.
Defined.

(** ** Reading the curations *)

Lemma lstrip_head s :
  lstrip s = EmptyString \/ exists c s', lstrip s = String c s' /\ isspace c = false.
Proof.
  induction s as [|c s IH]; [by left|]. simpl.
  destruct (isspace c) eqn:E; [exact IH|]. right. by exists c, s.
Qed.

Lemma lstrip_fixed c s : isspace c = false -> lstrip (String c s) = String c s.
Proof. intros H. simpl. by rewrite H. Qed.

Lemma rstrip_head c s :
  isspace c = false -> exists r, rstrip (String c s) = String c r.
Proof.
  intros H. simpl. destruct (rstrip s) as [|d r].
  - rewrite H. by exists EmptyString.
  - by exists (String d r).
Qed.

Lemma rstrip_idemp s : rstrip (rstrip s) = rstrip s.
Proof.
  induction s as [|c s IH]; [done|]. simpl.
  destruct (rstrip s) as [|d r] eqn:E.
  - destruct (isspace c) eqn:Hc; [done|]. simpl. by rewrite Hc.
  - change (rstrip (String c (String d r)))
      with (match rstrip (String d r) with
            | EmptyString => if isspace c then EmptyString else String c EmptyString
            | String d' r' => String c (String d' r')
            end).
    by rewrite IH.
Qed.

Lemma strip_idemp s : strip (strip s) = strip s.
Proof.
  unfold strip. destruct (lstrip_head s) as [->|(c & s' & -> & Hc)]; [done|].
  destruct (rstrip_head c s' Hc) as [r E].
  rewrite E, (lstrip_fixed c r Hc), <- E. apply rstrip_idemp.
Qed.

Lemma all_chars_lstrip p s : all_chars p s = true -> all_chars p (lstrip s) = true.
Proof.
  induction s as [|c s IH]; [done|]. cbn [all_chars lstrip].
  intros [Hc Hs]%andb_true_iff. destruct (isspace c); [by apply IH|].
  cbn [all_chars]. by rewrite Hc, Hs.
Qed.

Lemma all_chars_rstrip p s : all_chars p s = true -> all_chars p (rstrip s) = true.
Proof.
  induction s as [|c s IH]; [done|]. cbn [all_chars rstrip].
  intros [Hc Hs]%andb_true_iff. specialize (IH Hs).
  destruct (rstrip s) as [|d r].
  - destruct (isspace c); [done|]. cbn [all_chars]. by rewrite Hc.
  - cbn [all_chars] in *. by rewrite Hc, IH.
Qed.

Lemma all_chars_strip p s : all_chars p s = true -> all_chars p (strip s) = true.
Proof. intros H. by apply all_chars_rstrip, all_chars_lstrip. Qed.

(** No piece of a split holds the separator. *)
Lemma split_pieces sep s piece :
  piece ∈ split sep s -> all_chars (fun c => negb (Ascii.eqb sep c)) piece = true.
Proof.
  revert piece; induction s as [|c s IH]; intros piece; cbn [split].
  - by intros ->%list_elem_of_singleton.
  - destruct (Ascii.eqb_spec c sep) as [->|Hne].
    + intros [->|Hin]%elem_of_cons; [done|by apply IH].
    + destruct (split sep s) as [|first pieces] eqn:E.
      * intros ->%list_elem_of_singleton. cbn [all_chars].
        rewrite andb_true_r. apply negb_true_iff, Ascii.eqb_neq. congruence.
      * intros [->|Hin]%elem_of_cons.
        -- cbn [all_chars]. rewrite (IH first) by (by left). rewrite andb_true_r.
           apply negb_true_iff, Ascii.eqb_neq. congruence.
        -- apply IH. by right.
Qed.

(** A split at the first separator gives the line back when there is no
    separator, and otherwise two pieces, the first without separator. *)
Lemma split_once_spec sep s :
  (contains (String sep EmptyString) s = false /\ split_once sep s = [s])
  \/ (contains (String sep EmptyString) s = true
      /\ exists name rest,
           split_once sep s = [name; rest]
           /\ all_chars (fun c => negb (Ascii.eqb sep c)) name = true).
Proof.
  induction s as [|c s IH]; [by left|].
  rewrite contains_char_cons. cbn [split_once].
  rewrite (Ascii.eqb_sym sep c).
  destruct (Ascii.eqb_spec c sep) as [->|Hne]; simpl.
  - right. split; [done|]. by exists EmptyString, s.
  - destruct IH as [[Hno ->]|[Hyes (name & rest & -> & Hname)]].
    + by left.
    + right. split; [done|]. exists (String c name), rest. split; [done|].
      cbn [all_chars]. rewrite Hname, andb_true_r.
      apply negb_true_iff, Ascii.eqb_neq. congruence.
Qed.

Lemma read_line_unpacks typed : read_line typed <> TypedUnpackError.
Proof.
  unfold read_line.
  destruct (String.eqb (lower (strip typed)) "done"); [done|].
  destruct (split_once_spec "|" (strip typed))
    as [[-> _]|[-> (name & keywords_str & -> & _)]]; simpl negb; cbv iota; [done|].
  by destruct (truthy (strip name) && nonempty _).
Qed.

(** X15. A line typed at the prompt never makes the unpacking of
    [line.split('|', 1)] fail; and every curation that is accepted has a
    name that is not empty, has no blank at either end and holds no bar,
    and a list of keywords that is not empty, each keyword being not
    empty, without blank at either end and without comma. *)
Theorem read_line_accepts_well_formed typed :
  read_line typed <> TypedUnpackError
  /\ (forall c,
        read_line typed = TypedCuration c ->
        truthy (Curation.name c) = true
        /\ strip (Curation.name c) = Curation.name c
        /\ contains "|" (Curation.name c) = false
        /\ Curation.keywords c <> []
        /\ (forall kw, kw ∈ Curation.keywords c ->
              truthy kw = true /\ strip kw = kw /\ contains "," kw = false)).
Proof.
  unfold read_line.
  destruct (String.eqb (lower (strip typed)) "done"); [by split|].
  destruct (split_once_spec "|" (strip typed))
    as [[-> _]|[-> (name & keywords_str & -> & Hname)]]; simpl negb; cbv iota.
  { by split. }
  destruct (truthy (strip name)) eqn:Hn; simpl.
  2: { by split. }
  destruct (nonempty _) eqn:Hk; [|by split].
  split; [done|]. intros c [= <-]. simpl.
  split; [done|]. split; [apply strip_idemp|]. split.
  { apply contains_char_all. by apply all_chars_strip. }
  split.
  { intros E. by rewrite E in Hk. }
  intros kw (piece & -> & Hin)%list_elem_of_fmap.
  apply list_elem_of_In, filter_In in Hin as [Hin Ht].
  split; [done|]. split; [apply strip_idemp|].
  apply contains_char_all, all_chars_strip.
  by apply (split_pieces "," keywords_str), list_elem_of_In.
Qed.

Lemma read_line_accepts_well_formed_witness :
  truthy (Curation.name (Curation.mk "Party Wear" ["embellished"; "sequin"]%string)) = true
  /\ strip (Curation.name (Curation.mk "Party Wear" ["embellished"; "sequin"]%string)) =
       Curation.name (Curation.mk "Party Wear" ["embellished"; "sequin"]%string)
  /\ contains "|" (Curation.name (Curation.mk "Party Wear" ["embellished"; "sequin"]%string)) = false
  /\ Curation.keywords (Curation.mk "Party Wear" ["embellished"; "sequin"]%string) <> []
  /\ (forall kw, kw ∈ Curation.keywords (Curation.mk "Party Wear" ["embellished"; "sequin"]%string) ->
        truthy kw = true /\ strip kw = kw /\ contains "," kw = false).
Proof.
  apply (proj2 (read_line_accepts_well_formed "  Party Wear | embellished, , sequin,  ")).
  reflexivity.
Defined.

Lemma read_curations_run before :
  Forall (fun line => read_line line <> TypedDone) before ->
  forall curations,
    (forall ending after,
       read_line ending = TypedDone ->
       read_curations (before ++ ending :: after) curations =
       ReadAll (curations ++ omap accepted before) after)
    /\ read_curations before curations = ReadEOF.
Proof.
  induction 1 as [|line before Hline _ IH]; intros curations.
  - split; [|done]. intros ending after Hdone. simpl. by rewrite Hdone, app_nil_r.
  - pose proof (read_line_unpacks line) as Hunpack.
    change ((line :: before) ++ ?l) with (line :: (before ++ l)).
    cbn [read_curations]. rewrite omap_cons_eq. unfold accepted at 1.
    destruct (read_line line) as [| | |c|]; try done.
    + destruct (IH (curations ++ [c])) as [Hall Heof]. split; [|done].
      intros ending after Hdone. rewrite (Hall ending after Hdone).
      by rewrite <- app_assoc.
Qed.

(** X16. Reading the curations ends at the first line that reads as
    [done] (in any casing, blanks around it ignored): the curations
    accepted before it are kept in the order typed, lines without a bar
    or without name or keywords are passed over, and what is typed after
    it is left unread. When no line reads as [done], reading runs into
    the end of the input. *)
Theorem read_curations_until_done before :
  Forall (fun line => read_line line <> TypedDone) before ->
  (forall ending after,
     read_line ending = TypedDone ->
     read_curations (before ++ ending :: after) [] = ReadAll (omap accepted before) after)
  /\ read_curations before [] = ReadEOF.
Proof. intros Hbefore. apply (read_curations_run before Hbefore []). Qed.

Lemma read_curations_until_done_witness :
  read_curations (["Party | sequin, beaded"; "no bar here"; " | lost"]%string
                  ++ " DONE "%string :: ["Late | ignored"]%string) [] =
  ReadAll (omap accepted ["Party | sequin, beaded"; "no bar here"; " | lost"]%string)
          ["Late | ignored"]%string.
Proof.
  apply (proj1 (read_curations_until_done
                  ["Party | sequin, beaded"; "no bar here"; " | lost"]%string
                  ltac:(repeat constructor; discriminate))).
  reflexivity.
Defined.

(** ** The results of the filtering loop *)

Lemma dict_get_set_eq name ids results :
  dict_get name (dict_set name ids results) = Some ids.
Proof.
  induction results as [|[name' ids'] results IH]; simpl.
  - by rewrite String.eqb_refl.
  - destruct (String.eqb name' name) eqn:E; simpl; by rewrite E.
Qed.

Lemma dict_get_set_ne name other ids results :
  other <> name ->
  dict_get other (dict_set name ids results) = dict_get other results.
Proof.
  intros Hne. induction results as [|[name' ids'] results IH]; simpl.
  - destruct (String.eqb_spec name other); [congruence|done].
  - destruct (String.eqb_spec name' name) as [->|]; simpl.
    + destruct (String.eqb_spec name other); [congruence|done].
    + by rewrite IH.
Qed.

Lemma dict_set_keys name ids results :
  (name ∈ (fst <$> results) /\ (fst <$> dict_set name ids results) = (fst <$> results))
  \/ ((name ∉ (fst <$> results)) /\ dict_set name ids results = results ++ [(name, ids)]).
Proof.
  induction results as [|[name' ids'] results IH]; cbn [dict_set].
  - right. split; [apply not_elem_of_nil|done].
  - destruct (String.eqb_spec name' name) as [->|Hne]; rewrite !fmap_cons; cbn [fst].
    + left. split; [by left|done].
    + destruct IH as [[Hin E]|[Hnot E]].
      * left. split; [by right|]. by rewrite E.
      * right. split; [|by rewrite E].
        intros [?|?]%elem_of_cons; [congruence|done].
Qed.

Section filtering_loop.
Variable all_products_data : list Scraped.t.

Let step (results : list (string * list string)) (curation : Curation.t) :=
  dict_set (Curation.name curation)
           (filter_by_keywords all_products_data (Curation.keywords curation))
           results.

Lemma step_keys results curations :
  NoDup (fst <$> results) ->
  NoDup (fst <$> foldl step results curations)
  /\ (forall name, name ∈ fst <$> foldl step results curations <->
        name ∈ fst <$> results \/ name ∈ Curation.name <$> curations).
Proof.
  revert results; induction curations as [|c curations IH]; intros results Hnodup.
  - simpl. split; [done|]. intros name. rewrite elem_of_nil. tauto.
  - simpl foldl. unfold step at 2 4.
    destruct (dict_set_keys (Curation.name c)
                (filter_by_keywords all_products_data (Curation.keywords c)) results)
      as [[Hin E]|[Hnot E]].
    + destruct (IH (dict_set (Curation.name c)
                      (filter_by_keywords all_products_data (Curation.keywords c)) results))
        as [Hnd Hkeys]; [by rewrite E|].
      split; [done|]. intros name. rewrite Hkeys, E, fmap_cons, elem_of_cons.
      split; [tauto|]. intros [?|[->|?]]; tauto.
    + destruct (IH (dict_set (Curation.name c)
                      (filter_by_keywords all_products_data (Curation.keywords c)) results))
        as [Hnd Hkeys].
      { rewrite E, fmap_app. apply NoDup_app. split; [done|]. split.
        - intros name Hname ->%list_elem_of_singleton. done.
        - apply NoDup_singleton. }
      split; [done|]. intros name.
      rewrite Hkeys, E, fmap_app, elem_of_app.
      change (fst <$> [(Curation.name c,
                        filter_by_keywords all_products_data (Curation.keywords c))])
        with [Curation.name c].
      rewrite list_elem_of_singleton, fmap_cons, elem_of_cons. tauto.
Qed.

Lemma step_get_other results curations name :
  name ∉ Curation.name <$> curations ->
  dict_get name (foldl step results curations) = dict_get name results.
Proof.
  revert results; induction curations as [|c curations IH]; intros results Hnot; [done|].
  simpl foldl. rewrite IH.
  - apply dict_get_set_ne. intros ->. apply Hnot. by left.
  - intros Hin. apply Hnot. by right.
Qed.

Lemma step_distinct results curations :
  NoDup ((fst <$> results) ++ (Curation.name <$> curations)) ->
  foldl step results curations =
  results ++ ((fun c => (Curation.name c,
                         filter_by_keywords all_products_data (Curation.keywords c)))
              <$> curations).
Proof.
  revert results; induction curations as [|c curations IH]; intros results Hnodup.
  - simpl. by rewrite app_nil_r.
  - simpl foldl. unfold step at 2.
    rewrite fmap_cons in Hnodup.
    destruct (dict_set_keys (Curation.name c)
                (filter_by_keywords all_products_data (Curation.keywords c)) results)
      as [[Hin _]|[_ E]].
    + apply NoDup_app in Hnodup as (_ & Hdisj & _).
      destruct (Hdisj _ Hin). by left.
    + rewrite E, IH.
      * by rewrite <- app_assoc.
      * rewrite fmap_app, <- app_assoc. exact Hnodup.
Qed.
End filtering_loop.

(** X17. The results of the filtering loop hold every curation name once;
    the ids stored under a name are those selected by the keywords of the
    last curation of that name, so a curation typed again under the same
    name replaces the earlier one; when all names differ, the results are
    the curations' names with their selected ids, in the order typed. *)
Theorem filter_curations_last_wins all_products_data curations :
  NoDup (fst <$> filter_curations all_products_data curations)
  /\ (forall name, name ∈ fst <$> filter_curations all_products_data curations <->
        name ∈ Curation.name <$> curations)
  /\ (forall before c after,
        curations = before ++ c :: after ->
        Curation.name c ∉ Curation.name <$> after ->
        dict_get (Curation.name c) (filter_curations all_products_data curations) =
        Some (filter_by_keywords all_products_data (Curation.keywords c)))
  /\ (NoDup (Curation.name <$> curations) ->
        filter_curations all_products_data curations =
        (fun c => (Curation.name c,
                   filter_by_keywords all_products_data (Curation.keywords c)))
        <$> curations).
Proof.
  unfold filter_curations.
  destruct (step_keys all_products_data [] curations (NoDup_nil_2)) as [Hnd Hkeys].
  split; [done|]. split; [|split].
  - intros name. rewrite Hkeys, elem_of_nil. tauto.
  - intros before c after -> Hlast. rewrite foldl_app. simpl foldl.
    rewrite step_get_other by done. apply dict_get_set_eq.
  - intros Hnames. by apply (step_distinct all_products_data []).
Qed.

Lemma filter_curations_last_wins_witness :
  dict_get (Curation.name (Curation.mk "Party" ["gown"]%string))
    (filter_curations [Scraped.mk "A" "red sequin gown" "Gown" "Acme"]
       ([Curation.mk "Party" ["velvet"]%string]
        ++ Curation.mk "Party" ["gown"]%string :: [Curation.mk "Day" ["red"]%string])) =
  Some (filter_by_keywords [Scraped.mk "A" "red sequin gown" "Gown" "Acme"]
          (Curation.keywords (Curation.mk "Party" ["gown"]%string))).
Proof.
  apply (proj1 (proj2 (proj2
    (filter_curations_last_wins [Scraped.mk "A" "red sequin gown" "Gown" "Acme"]
       ([Curation.mk "Party" ["velvet"]%string]
        ++ Curation.mk "Party" ["gown"]%string :: [Curation.mk "Day" ["red"]%string]))))
    [Curation.mk "Party" ["velvet"]%string]
    (Curation.mk "Party" ["gown"]%string)
    [Curation.mk "Day" ["red"]%string]).
  - reflexivity.
  - simpl. intros [H|H]%elem_of_cons; [discriminate|by apply elem_of_nil in H].
Defined.

(** ** [scrape_and_filter_by_keywords] *)

Lemma check_product_run o kl debug j product :
  exists t,
    check_product o kl debug (S j) product =
    (inr (match checked_page debug j o with
          | Some page =>
              if nonempty (List.filter
                             (fun keyword => contains keyword (broad_text product page)) kl)
              then Some (Product.mp_code product) else None
          | None => None
          end), t)
    /\ count_gets t = 1.
Proof.
  unfold check_product, broad_get, broad_read, debug_output, checked_page,
    sleep, emit, raise.
  generalize (S j <=? 3); intros early.
  destruct o as [|status [e|page]]; simpl;
    try destruct (status =? 200)%Z; simpl;
    try (eexists; split; reflexivity).
  destruct debug, early, (BroadSoup.meta_desc page); simpl;
    try (eexists; split; reflexivity);
    match goal with
    | |- context [if ?b then Some _ else None] => destruct b
    end; eexists; split; reflexivity.
Qed.

Lemma any_keyword_in_broad kl product page :
  any_keyword_in kl (broad_scraped product page) =
  nonempty (List.filter (fun keyword => contains keyword (broad_text product page)) kl).
Proof. symmetry. apply nonempty_filter_existsb. Qed.

Lemma check_products_run world kl debug j products acc :
  outcome (check_products world kl debug j products acc) =
    inr (acc ++ (Scraped.mp_code <$>
                   List.filter (any_keyword_in kl)
                     (broad_corpus (fun i => checked_page debug (j + i) (world (j + i)))
                                   products)))
  /\ count_gets (effects (check_products world kl debug j products acc)) = length products.
Proof.
  revert j acc; induction products as [|p products IH]; intros j acc.
  - simpl. by rewrite app_nil_r.
  - destruct (check_product_run (world j) kl debug j p) as (t & E & Hgets).
    cbn [check_products]. rewrite IO_bind_run, E. simpl outcome. simpl effects.
    rewrite count_gets_app, Hgets.
    match goal with |- context [check_products _ _ _ _ _ ?a] =>
      destruct (IH (S j) a) as [-> ->] end.
    split; [|done]. f_equal. unfold broad_corpus.
    rewrite imap_cons, omap_cons_eq, Nat.add_0_r.
    assert (Himap :
      imap (fun i product =>
              broad_scraped product <$> checked_page debug (S j + i) (world (S j + i)))
           products
      = imap ((fun i product =>
                 broad_scraped product <$> checked_page debug (j + i) (world (j + i))) ∘ S)
             products).
    { apply imap_ext. intros i q _. simpl. by rewrite Nat.add_succ_r. }
    rewrite Himap.
    destruct (checked_page debug j (world j)) as [page|]; simpl; [|done].
    rewrite any_keyword_in_broad.
    destruct (nonempty _); simpl; [|done].
    by rewrite <- app_assoc.
Qed.

(** X18. The single-curation script makes one GET per item and returns
    exactly what [filter_by_keywords] returns, for the same keywords, on
    the corpus of the items fetched once each with the broad text: the
    matching done while scraping and the matching done afterwards agree.
    Without debug output, the items of that corpus are those whose GET
    answers 200 with a body that reads and parses. *)
Theorem check_products_is_filter world keywords debug products :
  count_gets (effects (check_products world (lower <$> keywords) debug 0 products [])) =
    length products
  /\ outcome (check_products world (lower <$> keywords) debug 0 products []) =
       inr (filter_by_keywords
              (broad_corpus (fun j => checked_page debug j (world j)) products)
              keywords)
  /\ (forall j page,
        checked_page false j (world j) = Some page <->
        exists status, world j = BroadResponds status (inr page) /\ status = 200%Z).
Proof.
  destruct (check_products_run world (lower <$> keywords) debug 0 products []) as [Hout Hgets].
  split; [done|]. split.
  - rewrite Hout, filter_by_keywords_eq. done.
  - intros j page. unfold checked_page.
    destruct (world j) as [|status [e|page']].
    + split; [done|]. by intros (? & ? & _).
    + split; [done|]. by intros (? & ? & _).
    + destruct (Z.eqb_spec status 200) as [->|Hne]; simpl.
      * split.
        -- intros H. exists 200%Z. split; [|done].
           destruct (BroadSoup.meta_desc page'); congruence.
        -- intros (s & [= _ ->] & _). by destruct (BroadSoup.meta_desc page).
      * split; [done|]. intros (s & [= -> ->] & ->). done.
Qed.

Lemma check_products_is_filter_witness :
  checked_page false 0
    ((fun _ : nat => BroadResponds 200
                       (inr (BroadSoup.mk BroadSoup.NoTag BroadSoup.NoTag "Sequin gown" []))) 0)
  = Some (BroadSoup.mk BroadSoup.NoTag BroadSoup.NoTag "Sequin gown" []).
Proof.
  apply (proj2 (proj2
    (check_products_is_filter
       (fun _ : nat => BroadResponds 200
                         (inr (BroadSoup.mk BroadSoup.NoTag BroadSoup.NoTag "Sequin gown" [])))
       ["Sequin"]%string false
       [Product.mk "A" "https://x/a" "Gown" "Acme"]))).
  exists 200%Z. split; reflexivity.
Defined.

(** X19. The debug output can drop an item: among the first three items,
    one whose description meta tag has no [content] attribute makes the
    debug output raise, the item is passed over, and its id is not
    returned even though a keyword matches; without debug output the same
    item is returned. Items after the third are not affected. *)
Theorem debug_output_drops_item world keywords product page :
  world 0 = BroadResponds 200 (inr page) ->
  BroadSoup.meta_desc page = BroadSoup.TagWithoutContent ->
  any_keyword_in (lower <$> keywords) (broad_scraped product page) = true ->
  outcome (check_products world (lower <$> keywords) false 0 [product] []) =
    inr [Product.mp_code product]
  /\ outcome (check_products world (lower <$> keywords) true 0 [product] []) = inr []
  /\ (forall j o, 3 <= j -> checked_page true j o = checked_page false j o).
Proof.
  intros Hworld Hmeta Hmatch.
  destruct (check_products_run world (lower <$> keywords) false 0 [product] []) as [-> _].
  destruct (check_products_run world (lower <$> keywords) true 0 [product] []) as [-> _].
  unfold broad_corpus. simpl. rewrite Hworld. simpl. rewrite Hmeta. simpl.
  rewrite Hmatch. split; [done|]. split; [done|].
  intros j o Hj. unfold checked_page.
  destruct o as [|status [e|page']]; try done.
  destruct (status =? 200)%Z; [|done].
  destruct (BroadSoup.meta_desc page'); try done.
  simpl. destruct j as [|[|[|j]]]; try lia. done.
Qed.

Lemma debug_output_drops_item_witness :
  outcome (check_products
             (fun _ => BroadResponds 200
                         (inr (BroadSoup.mk BroadSoup.TagWithoutContent BroadSoup.NoTag
                                 "Sequin gown with beads" [])))
             (lower <$> ["Sequin"]%string) false 0
             [Product.mk "A" "https://x/a" "Gown" "Acme"] []) =
    inr [Product.mp_code (Product.mk "A" "https://x/a" "Gown" "Acme")]
  /\ outcome (check_products
                (fun _ => BroadResponds 200
                            (inr (BroadSoup.mk BroadSoup.TagWithoutContent BroadSoup.NoTag
                                    "Sequin gown with beads" [])))
                (lower <$> ["Sequin"]%string) true 0
                [Product.mk "A" "https://x/a" "Gown" "Acme"] []) = inr []
  /\ (forall j o, 3 <= j -> checked_page true j o = checked_page false j o).
Proof.
  apply (debug_output_drops_item
           (fun _ => BroadResponds 200
                       (inr (BroadSoup.mk BroadSoup.TagWithoutContent BroadSoup.NoTag
                               "Sequin gown with beads" [])))
           ["Sequin"]%string
           (Product.mk "A" "https://x/a" "Gown" "Acme")
           (BroadSoup.mk BroadSoup.TagWithoutContent BroadSoup.NoTag
              "Sequin gown with beads" [])); reflexivity.
Defined.

(** ** The pauses of the paging loop *)

(** X20. The paging loop pauses once, for the fixed delay, after every
    requested page that lets it go on, and not after the page that stops
    it: the time it spends in pauses is the delay times the number of such
    pages among the requested ones. The pages that let it go on are those
    that answer 200 with JSON that reads and holds at least 24 records,
    none of which has a product id together with a [webURL] that is not a
    string. *)
Theorem paging_pauses_after_full_pages catalog search_text pause ceiling :
  total_sleep (effects (discover catalog search_text pause ceiling)) =
  (pause * Z.of_nat
             (full_pages catalog
                (seq 0 (count_gets (effects (discover catalog search_text pause ceiling))))))%Z
  /\ (forall page,
        page_stops (catalog page) = false <->
        exists products,
          catalog page = Responded 200 (Some products)
          /\ 24 <= length products
          /\ Forall (fun r => truthy (Listing.productId r) = true ->
                              is_Some (Listing.webURL r)) products).
Proof.
  destruct (discover_run catalog search_text pause ceiling)
    as (n & _ & _ & _ & Hreq & _ & Hsleep).
  split; [|intros page; apply page_goes_on_spec].
  by rewrite count_gets_requested_urls, Hreq, length_fmap, length_seq, Hsleep.
Qed.

(** ** [main], end to end *)

Section gather_returns.
Context {R : Type}.
Variable outcomes : list R.

Let step (slots : list (option R)) (i : nat) : list (option R) :=
  <[i := outcomes !! i]> slots.

Lemma step_sound slots order :
  (forall j r, slots !! j = Some (Some r) -> outcomes !! j = Some r) ->
  forall j r, foldl step slots order !! j = Some (Some r) -> outcomes !! j = Some r.
Proof.
  revert slots; induction order as [|i order IH]; intros slots Hslots; [done|].
  simpl. apply IH. intros j r. unfold step. rewrite list_lookup_insert.
  case_decide as Hi; [|by apply Hslots].
  destruct Hi as [-> _]. by intros [= ->].
Qed.

(** When [gather] returns, it returns the outcomes of the tasks, each at
    the position of its task. *)
Lemma gather_returns order results :
  gather order outcomes = Some results -> results = outcomes.
Proof.
  unfold gather. intros Hall%mapM_Some. apply list_eq. intros j.
  assert (Hlen : length results = length outcomes).
  { rewrite <- (Forall2_length _ _ _ Hall). unfold gather_slots.
    by rewrite step_length, length_replicate. }
  destruct (results !! j) as [r|] eqn:Hr.
  - destruct (Forall2_lookup_r _ _ _ _ _ Hall Hr) as (slot & Hslot & Hid).
    simpl in Hid. subst slot. symmetry.
    apply (step_sound (replicate (length outcomes) None) order); [|exact Hslot].
    intros i r' Hi. apply lookup_replicate in Hi as [? _]. done.
  - symmetry. apply lookup_ge_None. apply lookup_ge_None in Hr. lia.
Qed.
End gather_returns.

Lemma scrape_products_batch_result world order products debug corpus :
  scrape_products_batch world order products debug = Some corpus ->
  corpus = harvested world products.
Proof.
  unfold scrape_products_batch.
  destruct (gather order _) as [results|] eqn:E; [|done].
  intros [= <-]. apply gather_returns in E as ->. apply tasks_outcomes.
Qed.

Lemma harvested_from_listing catalog search_text pause ceiling world items r :
  outcome (discover catalog search_text pause ceiling) = inr items ->
  r ∈ harvested world items ->
  exists page records rec,
    catalog page = Responded 200 (Some records)
    /\ rec ∈ records
    /\ Scraped.mp_code r = Listing.productId rec
    /\ truthy (Scraped.mp_code r) = true.
Proof.
  intros Hitems (i & p & Hi & Hr)%elem_of_harvested.
  destruct (harvest_result_scraped _ _ _ Hr) as [page' ->].
  destruct (discovered_from_listing catalog search_text pause ceiling items p Hitems)
    as (page & records & rec & Hcat & Hrec & Hlisted);
    [by eapply list_elem_of_lookup_2|].
  destruct (listed_spec rec p Hlisted) as (web_url & _ & ? & ? & _).
  by exists page, records, rec.
Qed.

Lemma elem_of_dict_set entry name ids results :
  entry ∈ dict_set name ids results -> entry ∈ results \/ entry = (name, ids).
Proof.
  induction results as [|[name' ids'] results IH]; cbn [dict_set].
  - intros ->%list_elem_of_singleton. by right.
  - destruct (String.eqb_spec name' name) as [->|Hne].
    + intros [->|Hin]%elem_of_cons; [by right|]. left. by right.
    + intros [->|Hin]%elem_of_cons; [left; by left|].
      destruct (IH Hin) as [?|?]; [left; by right|by right].
Qed.

Lemma elem_of_filter_curations corpus curations name ids :
  (name, ids) ∈ filter_curations corpus curations ->
  exists c, c ∈ curations /\ name = Curation.name c
            /\ ids = filter_by_keywords corpus (Curation.keywords c).
Proof.
  unfold filter_curations.
  assert (H : forall results,
            (name, ids) ∈ foldl (fun results curation =>
                                   dict_set (Curation.name curation)
                                     (filter_by_keywords corpus (Curation.keywords curation))
                                     results) results curations ->
            (name, ids) ∈ results
            \/ exists c, c ∈ curations /\ name = Curation.name c
                         /\ ids = filter_by_keywords corpus (Curation.keywords c)).
  { induction curations as [|c curations IH]; intros results; [by left|].
    simpl. intros [Hin|(c' & Hc' & ? & ?)]%IH.
    - apply elem_of_dict_set in Hin as [?|[= -> ->]]; [by left|].
      right. exists c. split; [by left|done].
    - right. exists c'. split; [by right|done]. }
  intros [Hin|?]%H; [|done]. by apply elem_of_nil in Hin.
Qed.

Lemma read_curations_accepted typed acc curations unread c :
  read_curations typed acc = ReadAll curations unread ->
  c ∈ curations ->
  c ∈ acc \/ exists line, line ∈ typed /\ read_line line = TypedCuration c.
Proof.
  revert acc; induction typed as [|line typed IH]; intros acc; [done|].
  cbn [read_curations]. destruct (read_line line) as [| | |c'|] eqn:E; try done.
  - intros [= <- _] Hin. by left.
  - intros H Hin. destruct (IH _ H Hin) as [?|(l & ? & ?)]; [by left|].
    right. exists l. split; [by right|done].
  - intros H Hin. destruct (IH _ H Hin) as [?|(l & ? & ?)]; [by left|].
    right. exists l. split; [by right|done].
  - intros H Hin. destruct (IH _ H Hin) as [Hacc|(l & ? & ?)].
    + apply elem_of_app in Hacc as [?|Hc]; [by left|].
      apply list_elem_of_singleton in Hc as ->.
      right. exists line. split; [by left|done].
    + right. exists l. split; [by right|done].
Qed.

(** X21. When [main] saves results, every name in them is the name of a
    curation typed by the user, and every id listed under it is the
    product id, not empty, of a record of a listing page that answered
    200 and belongs to an item whose page was fetched: nothing is saved
    that the catalog did not list. *)
Theorem main_saves_listed_ids typed catalog world order results :
  main typed catalog world order = Saved results ->
  forall name ids,
    (name, ids) ∈ results ->
    (exists line c,
       line ∈ typed /\ read_line line = TypedCuration c /\ name = Curation.name c)
    /\ (forall id, id ∈ ids ->
          truthy id = true
          /\ exists page records rec,
               catalog page = Responded 200 (Some records)
               /\ rec ∈ records
               /\ id = Listing.productId rec).
Proof.
  unfold main. destruct typed as [|url_line typed]; [done|].
  destruct (read_curations typed []) as [curations unread| |] eqn:Hread; try done.
  destruct (nonempty curations); [|done]. simpl negb. cbv iota.
  destruct unread as [|debug_line [|enter unread]]; try done.
  set (url := if negb (truthy (strip url_line)) then default_url else strip url_line).
  set (debug := String.eqb (lower (strip debug_line)) "y").
  destruct (scrape_all_products_async catalog world order (extract_search_text url) debug)
    as [corpus|] eqn:Hscrape; [|done].
  destruct (nonempty corpus); [|done]. simpl negb. cbv iota.
  intros [= <-] name ids (c & Hc & -> & ->)%elem_of_filter_curations.
  split.
  - destruct (read_curations_accepted _ _ _ _ c Hread Hc) as [Hin|(line & Hline & Hacc)].
    + by apply elem_of_nil in Hin.
    + exists line, c. split; [by right|done].
  - intros id (r & Hr & _ & <-)%elem_of_filter_by_keywords.
    unfold scrape_all_products_async in Hscrape.
    destruct (discover_never_raises catalog (extract_search_text url) 300 500)
      as [items Hitems].
    fold (discover_async catalog (extract_search_text url)) in Hitems.
    rewrite Hitems in Hscrape.
    apply scrape_products_batch_result in Hscrape as ->.
    destruct (harvested_from_listing catalog (extract_search_text url) 300 500
                world items r Hitems Hr) as (page & records & rec & ? & ? & ? & ?).
    split; [done|]. by exists page, records, rec.
Qed.

Lemma main_saves_listed_ids_witness :
  (exists line c,
     line ∈ [EmptyString; "Party | sequin"; "Day | dress, gown"; "done"; "n"; "go"]%string
     /\ read_line line = TypedCuration c /\ "Party"%string = Curation.name c)
  /\ (forall id, id ∈ ["MP1"]%string ->
        truthy id = true
        /\ exists page records rec,
             match page with
             | 0 => Responded 200 (Some [Listing.mk "MP1" (Some "/p") "Sequin Gown" "Acme";
                                         Listing.mk "MP2" (Some "/q") "Dress" "Acme"])
             | _ => RequestRaises
             end = Responded 200 (Some records)
             /\ rec ∈ records
             /\ id = Listing.productId rec).
Proof.
  apply (main_saves_listed_ids
           [EmptyString; "Party | sequin"; "Day | dress, gown"; "done"; "n"; "go"]%string
           (fun page => match page with
                        | 0 => Responded 200 (Some [Listing.mk "MP1" (Some "/p") "Sequin Gown" "Acme";
                                                    Listing.mk "MP2" (Some "/q") "Dress" "Acme"])
                        | _ => RequestRaises
                        end)
           (fun _ _ => GetResponds 200 (inr (Soup.mk None None [])))
           [1; 0]
           [("Party", ["MP1"]); ("Day", ["MP1"; "MP2"])]%string).
  - vm_compute. reflexivity.
  - left.
Defined.
